(** * Contract calculation of the table Raft leader

    A shallow embedding of [clustering/table_raft/leader.cc]:
    [calculate_contract], which computes the next contract of one region
    from the old contract, the shard configuration and the contract acks,
    and the split point computation at the start of
    [leader_t::pump_contracts].

    C++ containers are embedded as stdpp containers: [std::set] is a
    [gset], [std::map] is a [gmap], [boost::optional] is [option],
    [std::vector] is [list].  Exceptions ([std::map::at] on a missing key)
    and reading an empty [boost::optional] are results of the [except]
    monad. *)

From stdpp Require Import gmap strings list sorting.

Set Default Proof Using "Type".
Set Warnings "-clear-no-such-hyp".
#[global] Arguments Nat.div : simpl never.
Local Open Scope N_scope.
Local Open Scope nat_scope.

(** ** Identifiers *)

(** [uuid_u]: 128 bits, compared bytewise, that is as big-endian numbers. *)
Abbreviation uuid_u := N (only parsing).
Abbreviation server_id_t := N (only parsing).
Abbreviation branch_id_t := N (only parsing).
Abbreviation contract_id_t := N (only parsing).
(** [state_timestamp_t] wraps a [uint64_t]. *)
Abbreviation state_timestamp_t := N (only parsing).
(** [store_key_t]: a byte string, ordered lexicographically. *)
Abbreviation store_key_t := string (only parsing).

Definition nil_uuid : uuid_u := 0%N.

(** ** Exceptions *)

Inductive error_t : Set :=
  | out_of_range            (* std::map::at on a key that is absent *)
  | optional_uninitialized. (* operator* or -> on an empty boost::optional *)

Inductive except (A : Type) : Type :=
  | Ok (a : A)
  | Throw (e : error_t).
Arguments Ok {A} a.
Arguments Throw {A} e.

#[global] Instance except_ret : MRet except := λ A a, Ok a.
#[global] Instance except_bind : MBind except := λ A B f m,
  match m with
  | Ok a => f a
  | Throw e => Throw e
  end.

(** [m.at(k)] *)
Definition map_at `{Countable K} {V} (m : gmap K V) (k : K) : except V :=
  match m !! k with
  | Some v => Ok v
  | None => Throw out_of_range
  end.

(** [m.count(k)] of a [std::map] and [s.count(k)] of a [std::set] *)
Definition map_count `{Countable K} {V} (m : gmap K V) (k : K) : nat :=
  if m !! k is Some _ then 1 else 0.
Definition set_count `{Countable K} (s : gset K) (k : K) : nat :=
  if decide (k ∈ s) then 1 else 0.

(** [*o] and [o->] of a [boost::optional] *)
Definition deref {A} (o : option A) : except A :=
  match o with
  | Some a => Ok a
  | None => Throw optional_uninitialized
  end.

(** [static_cast<bool>(o)] *)
Definition has_value {A} (o : option A) : bool :=
  if o is Some _ then true else false.

(** The elements of a [std::set<uuid_u>] in iteration order (ascending). *)
Definition iter (s : gset N) : list N := merge_sort N.le (elements s).

(** The entries of a [std::map<uuid_u, V>] in iteration order (by key). *)
Definition key_le {V} (a b : N * V) : Prop := (a.1 ≤ b.1)%N.

#[global] Instance key_le_dec {V} : RelDecision (@key_le V).
Proof. intros a b. unfold key_le. apply _. Defined.

Definition map_iter {V} (m : gmap N V) : list (N * V) :=
  merge_sort key_le (map_to_list m).

(** ** Data model *)

(** Modelled from the spec: the declarations of [version_t], [region_t],
    [contract_ack_t], [contract_t], [table_config_t::shard_t], the branch
    history and [state_t] are in headers that are not among the sources;
    the fields below are the ones [leader.cc] reads and writes. *)
Module version_t.
Record t : Set := mk { branch : branch_id_t; timestamp : state_timestamp_t }.
End version_t.
Abbreviation version_t := version_t.t.

Module key_range_t.
(** [right] is unbounded when [None]. *)
Record t : Set := mk { left : store_key_t; right : option store_key_t }.
End key_range_t.
Abbreviation key_range_t := key_range_t.t.

Module region_t.
Record t : Set := mk { beg : N; end_ : N; inner : key_range_t }.
End region_t.
Abbreviation region_t := region_t.t.

Module contract_ack_t.
Inductive state_t : Set :=
  | primary_need_branch
  | primary_ready
  | secondary_need_primary
  | secondary_streaming.

#[global] Instance state_t_eq_dec : EqDecision state_t.
Proof. solve_decision. Defined.
End contract_ack_t.

Module contract_t.
Record primary_t : Set := mk_primary {
  server : server_id_t;
  warm_shutdown : bool;
  warm_shutdown_for : uuid_u;
  hand_over : option server_id_t
}.

Record t : Type := mk {
  replicas : gset server_id_t;
  voters : gset server_id_t;
  temp_voters : option (gset server_id_t);
  primary : option primary_t;
  branch : branch_id_t
}.

(** Assignments to one member. *)
Definition set_replicas (v : gset server_id_t) (c : t) : t :=
  mk v (voters c) (temp_voters c) (primary c) (branch c).
Definition set_voters (v : gset server_id_t) (c : t) : t :=
  mk (replicas c) v (temp_voters c) (primary c) (branch c).
Definition set_temp_voters (v : option (gset server_id_t)) (c : t) : t :=
  mk (replicas c) (voters c) v (primary c) (branch c).
Definition set_primary (v : option primary_t) (c : t) : t :=
  mk (replicas c) (voters c) (temp_voters c) v (branch c).
Definition set_branch (v : branch_id_t) (c : t) : t :=
  mk (replicas c) (voters c) (temp_voters c) (primary c) v.
Definition set_hand_over (v : option server_id_t) (p : primary_t) : primary_t :=
  mk_primary (server p) (warm_shutdown p) (warm_shutdown_for p) v.
End contract_t.
Abbreviation contract_t := contract_t.t.

Module table_config_t.
Record shard_t : Type := mk_shard {
  replicas : gset server_id_t;
  primary_replica : server_id_t
}.
End table_config_t.

Module branch_birth_certificate_t.
(** [origin] is a [region_map_t<version_t>], a list of regions with the
    version the branch started from in each of them. *)
Record t : Set := mk { origin : list (region_t * version_t) }.
End branch_birth_certificate_t.
Abbreviation branch_birth_certificate_t := branch_birth_certificate_t.t.

Abbreviation branch_history_t := (gmap branch_id_t branch_birth_certificate_t)
  (only parsing).

Module state_t.
Record t : Type := mk {
  contracts : gmap contract_id_t (region_t * contract_t)
}.
End state_t.
Abbreviation state_t := state_t.t.

(** What a call of [calculate_contract] leaves behind: the contract it
    returns, the value of the object its parameter [old_c] refers to, and the
    calls of [branch_maker] it made, in order. *)
Record outcome : Type := mk_outcome {
  returned : contract_t;
  old_c_after : contract_t;
  branch_maker_calls : list (server_id_t * version_t)
}.

(** [std::pair<state_timestamp_t, server_id_t>] under [operator<=]: by
    timestamp, then by server id. *)
Definition pair_le (a b : state_timestamp_t * server_id_t) : Prop :=
  (a.1 < b.1)%N ∨ (a.1 = b.1 ∧ (a.2 ≤ b.2)%N).

#[global] Instance pair_le_dec : RelDecision pair_le.
Proof. intros a b. unfold pair_le. apply _. Defined.

(** [std::sort(v.begin(), v.end())] on such pairs *)
Definition std_sort (v : list (state_timestamp_t * server_id_t)) :
    list (state_timestamp_t * server_id_t) :=
  merge_sort pair_le v.

(** ** [calculate_contract] *)

Section calculate_contract.
(** [branch_history] and [version_project_to_branch] are not declared in
    [leader.cc]; the function reads them from its environment. *)
Context (branch_history : branch_history_t).
Context (version_project_to_branch :
  branch_history_t → version_t → branch_id_t → region_t → state_timestamp_t).
(** The parameters, as in the source. *)
Context (region : region_t).
Context (old_c : contract_t).
Context (config : table_config_t.shard_t).
Context (ack_states : gmap server_id_t contract_ack_t.state_t).
Context (ack_versions : gmap server_id_t version_t).
Context (ack_branches : gmap server_id_t branch_id_t).
Context (branch_maker : server_id_t → version_t → branch_id_t).

(** [ack_states.count(server) == 1 && ack_states.at(server) == st]: the
    right operand is evaluated only when the key is present, so this [at]
    does not throw. *)
Definition acked (server : server_id_t) (st : contract_ack_t.state_t) : bool :=
  (map_count ack_states server =? 1) &&
  (if ack_states !! server is Some st' then bool_decide (st' = st) else false).

(** [static_cast<bool>(old_c.primary) && old_c.primary->server == server] *)
Definition old_primary_is (server : server_id_t) : bool :=
  if contract_t.primary old_c is Some p
  then bool_decide (contract_t.server p = server) else false.

(** Lines 31-36: add the servers of [config.replicas] to [new_c.replicas]. *)
Definition add_new_replicas (new_c : contract_t) : contract_t :=
  foldl (λ new_c server,
           if set_count (contract_t.replicas new_c) server =? 0
           then contract_t.set_replicas
                  ({[server]} ∪ contract_t.replicas new_c) new_c
           else new_c)
        new_c (iter (table_config_t.replicas config)).

(** Lines 41-50: the loop that counts [num_streaming]. *)
Definition num_streaming : nat :=
  foldl (λ num_streaming server,
           match ack_states !! server with
           | Some st =>
               if bool_decide (st = contract_ack_t.secondary_streaming)
                  || old_primary_is server
               then S num_streaming else num_streaming
           | None => num_streaming
           end)
        0 (iter (table_config_t.replicas config)).

(** Lines 40 and 55: the two guards around [new_c.temp_voters = ...]. *)
Definition initiates_voter_change : bool :=
  negb (has_value (contract_t.temp_voters old_c)) &&
  negb (bool_decide (contract_t.voters old_c = table_config_t.replicas config)) &&
  (size (table_config_t.replicas config) / 2 <? num_streaming).

(** Lines 38-59 *)
Definition initiate_voter_change (new_c : contract_t) : contract_t :=
  if initiates_voter_change
  then contract_t.set_temp_voters (Some (table_config_t.replicas config)) new_c
  else new_c.

(** Lines 63 and 71-73: the two guards around the commit. *)
Definition commits_voter_change : bool :=
  has_value (contract_t.temp_voters old_c) &&
  (if contract_t.primary old_c is Some p
   then acked (contract_t.server p) contract_ack_t.primary_ready
   else false).

(** Lines 61-78 *)
Definition commit_voter_change (new_c : contract_t) : except contract_t :=
  if commits_voter_change then
    temp_voters ← deref (contract_t.temp_voters new_c);
    mret (contract_t.set_temp_voters None
            (contract_t.set_voters temp_voters new_c))
  else mret new_c.

(** Lines 85-88: the server is in neither [config.replicas], [old_c.voters]
    nor [old_c.temp_voters]. *)
Definition is_stale (server : server_id_t) : bool :=
  (set_count (table_config_t.replicas config) server =? 0) &&
  (set_count (contract_t.voters old_c) server =? 0) &&
  (if contract_t.temp_voters old_c is Some temp_voters
   then set_count temp_voters server =? 0 else true).

(** Lines 80-96: returns [new_c] and [should_kill_primary]. *)
Definition remove_old_replicas (new_c : contract_t) : contract_t * bool :=
  foldl (λ '(new_c, should_kill_primary) server,
           if is_stale server then
             if old_primary_is server then (new_c, true)
             else (contract_t.set_replicas
                     (contract_t.replicas new_c ∖ {[server]}) new_c,
                   should_kill_primary)
           else (new_c, should_kill_primary))
        (new_c, false) (iter (contract_t.replicas old_c)).

(** Lines 112-120: the loop over [new_c.voters] that fills
    [replica_states].  [replica_states.insert(pair)] has no position
    argument; the entry is added at the end, and the vector is sorted
    before it is read. *)
Fixpoint collect_replica_states (servers : list server_id_t)
    (replica_states : list (state_timestamp_t * server_id_t)) :
    except (list (state_timestamp_t * server_id_t)) :=
  match servers with
  | [] => mret replica_states
  | server :: servers =>
      if acked server contract_ack_t.secondary_need_primary then
        version ← map_at ack_versions server;
        let timestamp := version_project_to_branch
          branch_history version (contract_t.branch old_c) region in
        collect_replica_states servers (replica_states ++ [(timestamp, server)])
      else collect_replica_states servers replica_states
  end.

(** Lines 126-132: the loop over [replica_states[i]] for [i] from
    [new_c.voters.size() / 2]; [tail] is the part of the vector from [i]
    on. *)
Fixpoint select_loop (tail : list (state_timestamp_t * server_id_t))
    (new_primary : option server_id_t) : option server_id_t :=
  match tail with
  | [] => new_primary
  | entry :: tail =>
      if bool_decide (entry.2 = table_config_t.primary_replica config)
      then Some entry.2
      else select_loop tail (Some entry.2)
  end.

Definition select_new_primary (new_c : contract_t)
    (replica_states : list (state_timestamp_t * server_id_t)) :
    option server_id_t :=
  select_loop
    (drop (size (contract_t.voters new_c) / 2) replica_states) None.

(** Lines 98-151: returns [new_c] and the calls of [branch_maker]. *)
Definition elect_primary (new_c : contract_t) :
    except (contract_t * list (server_id_t * version_t)) :=
  if has_value (contract_t.primary old_c) then mret (new_c, [])
  else
    replica_states ←
      collect_replica_states (iter (contract_t.voters new_c)) [];
    let replica_states := std_sort replica_states in
    match select_new_primary new_c replica_states with
    | Some new_primary =>
        let p := contract_t.mk_primary new_primary false nil_uuid None in
        let new_c := contract_t.set_primary (Some p) new_c in
        version ← map_at ack_versions new_primary;
        mret (contract_t.set_branch (branch_maker new_primary version) new_c,
              [(new_primary, version)])
    | None => mret (new_c, [])
    end.

(** Lines 176-182 *)
Definition voters_cant_reach_primary (new_c : contract_t) : nat :=
  foldl (λ n server,
           if acked server contract_ack_t.secondary_need_primary
           then S n else n)
        0 (iter (contract_t.voters new_c)).

(** Lines 153-213 *)
Definition replace_primary (should_kill_primary : bool) (new_c : contract_t) :
    except contract_t :=
  match contract_t.primary old_c with
  | None => mret new_c
  | Some old_primary =>
      let should_kill_primary :=
        if size (contract_t.voters new_c) / 2
           <? voters_cant_reach_primary new_c
        then true else should_kill_primary in
      if should_kill_primary then
        mret (contract_t.set_primary None new_c)
      else if bool_decide (contract_t.server old_primary
                           ≠ table_config_t.primary_replica config)
              && acked (table_config_t.primary_replica config)
                       contract_ack_t.secondary_streaming then
        if bool_decide (contract_t.hand_over old_primary
                        = Some (table_config_t.primary_replica config))
           && acked (contract_t.server old_primary)
                    contract_ack_t.primary_ready
        then mret (contract_t.set_primary None new_c)
        else
          p ← deref (contract_t.primary new_c);
          mret (contract_t.set_primary
                  (Some (contract_t.set_hand_over
                           (Some (table_config_t.primary_replica config)) p))
                  new_c)
      else
        p ← deref (contract_t.primary new_c);
        mret (contract_t.set_primary
                (Some (contract_t.set_hand_over None p)) new_c)
  end.

(** Lines 215-222: the assignment is to [old_c.branch]; the result is the
    value of [old_c] afterwards. *)
Definition register_branch (new_c : contract_t) : except contract_t :=
  match contract_t.primary old_c, contract_t.primary new_c with
  | Some old_primary, Some new_primary =>
      if bool_decide (contract_t.server old_primary
                      = contract_t.server new_primary)
         && acked (contract_t.server old_primary)
                  contract_ack_t.primary_need_branch
      then
        b ← map_at ack_branches (contract_t.server old_primary);
        mret (contract_t.set_branch b old_c)
      else mret old_c
  | _, _ => mret old_c
  end.

(** Lines 10-225 *)
Definition calculate_contract : except outcome :=
  let new_c := old_c in
  let new_c := add_new_replicas new_c in
  let new_c := initiate_voter_change new_c in
  new_c ← commit_voter_change new_c;
  let '(new_c, should_kill_primary) := remove_old_replicas new_c in
  '(new_c, calls) ← elect_primary new_c;
  new_c ← replace_primary should_kill_primary new_c;
  old_c' ← register_branch new_c;
  mret (mk_outcome new_c old_c' calls).
End calculate_contract.

(** ** [leader_t::pump_contracts] *)

(** The local variables of [pump_contracts] and its two output parameters,
    as they are when the function returns. *)
Record pump_state : Type := mk_pump_state {
  split_points : gset store_key_t;
  old_contract_table : gmap store_key_t contract_t;
  ack_state_table : gmap store_key_t contract_ack_t.state_t;
  ack_version_table : gmap store_key_t version_t;
  ack_branch_table : gmap store_key_t branch_id_t;
  new_contracts_out : gmap contract_id_t (region_t * contract_t);
  delete_contracts_out : gset contract_id_t
}.

(** Lines 237-241: one [split_points.insert] per origin region of every
    branch. *)
Definition insert_origins (split_points : gset store_key_t)
    (branch_history : branch_history_t) : gset store_key_t :=
  foldl (λ split_points pair,
           foldl (λ split_points pair2,
                    {[key_range_t.left (region_t.inner pair2.1)]} ∪ split_points)
                 split_points (branch_birth_certificate_t.origin pair.2))
        split_points (map_iter branch_history).

(** Lines 243-245: the loop over [old_state.contracts] has an empty body. *)
Definition visit_old_contracts (split_points : gset store_key_t)
    (old_state : state_t) : gset store_key_t :=
  foldl (λ split_points pair, split_points)
        split_points (map_iter (state_t.contracts old_state)).

(** Lines 227-249 *)
Definition pump_contracts (branch_history : branch_history_t)
    (old_state : state_t)
    (new_contracts_out : gmap contract_id_t (region_t * contract_t))
    (delete_contracts_out : gset contract_id_t) : pump_state :=
  let split_points := ∅ in
  let split_points := insert_origins split_points branch_history in
  let old_contract_table := ∅ in
  let split_points := visit_old_contracts split_points old_state in
  mk_pump_state split_points old_contract_table ∅ ∅ ∅
                new_contracts_out delete_contracts_out.


(** ** Quantities the properties are stated with *)

Section quantities.
Context (branch_history : branch_history_t).
Context (version_project_to_branch :
  branch_history_t → version_t → branch_id_t → region_t → state_timestamp_t).
Context (region : region_t).
Context (old_c : contract_t).
Context (config : table_config_t.shard_t).
Context (ack_states : gmap server_id_t contract_ack_t.state_t).
Context (ack_versions : gmap server_id_t version_t).

(** The server of the primary of [old_c], if it has one. *)
Definition old_primary_server : option server_id_t :=
  contract_t.server <$> contract_t.primary old_c.

(** The server has acked [old_c], and it reports [secondary_streaming] or
    is the primary of [old_c]. *)
Definition acked_streaming_or_primary (server : server_id_t) : Prop :=
  is_Some (ack_states !! server)
  ∧ (ack_states !! server = Some contract_ack_t.secondary_streaming
     ∨ old_primary_server = Some server).

(** The count of rule 2 in the words of the specification: the server
    reports [secondary_streaming] or is the primary of [old_c], whether or
    not the primary has acked. *)
Definition streaming_or_primary (server : server_id_t) : Prop :=
  ack_states !! server = Some contract_ack_t.secondary_streaming
  ∨ old_primary_server = Some server.

(** The server has acked [secondary_need_primary] for [old_c]. *)
Definition needs_primary (server : server_id_t) : Prop :=
  ack_states !! server = Some contract_ack_t.secondary_need_primary.

(** The same, with a version in its ack. *)
Definition needs_primary_with_version (server : server_id_t) : Prop :=
  needs_primary server ∧ is_Some (ack_versions !! server).

(** The voters in force when the primary is looked at: [old_c.temp_voters]
    when the voter change is committed in this call (lines 71-76), and
    [old_c.voters] otherwise. *)
Definition current_voters : gset server_id_t :=
  match contract_t.temp_voters old_c, contract_t.primary old_c with
  | Some temp_voters, Some p =>
      if decide (ack_states !! contract_t.server p
                 = Some contract_ack_t.primary_ready)
      then temp_voters else contract_t.voters old_c
  | _, _ => contract_t.voters old_c
  end.

(** The old primary is a member of [old_c.replicas] that lines 85-91 mark
    for removal. *)
Definition old_primary_is_stale : Prop :=
  ∃ x, x ∈ contract_t.replicas old_c
       ∧ is_stale old_c config x = true
       ∧ old_primary_is old_c x = true.

(** The entry of [replica_states] for one voter, if it gets one. *)
Definition candidate_of (server : server_id_t) :
    option (state_timestamp_t * server_id_t) :=
  if decide (needs_primary server) then
    version ← ack_versions !! server;
    Some (version_project_to_branch
            branch_history version (contract_t.branch old_c) region, server)
  else None.

(** The voters that need a primary with their projected timestamps, by
    timestamp and then by server id. *)
Definition candidates : list (state_timestamp_t * server_id_t) :=
  std_sort (omap candidate_of (iter (contract_t.voters old_c))).

(** The candidates that are at least as up to date as more than half of
    the voters. *)
Definition eligible : list (state_timestamp_t * server_id_t) :=
  drop (size (contract_t.voters old_c) / 2) candidates.
End quantities.

#[global] Instance acked_streaming_or_primary_dec old_c ack_states server :
  Decision (acked_streaming_or_primary old_c ack_states server).
Proof. unfold acked_streaming_or_primary. apply _. Defined.

#[global] Instance streaming_or_primary_dec old_c ack_states server :
  Decision (streaming_or_primary old_c ack_states server).
Proof. unfold streaming_or_primary. apply _. Defined.

#[global] Instance needs_primary_dec ack_states server :
  Decision (needs_primary ack_states server).
Proof. unfold needs_primary. apply _. Defined.

#[global] Instance needs_primary_with_version_dec ack_states ack_versions server :
  Decision (needs_primary_with_version ack_states ack_versions server).
Proof. unfold needs_primary_with_version. apply _. Defined.

(** ** Concrete inputs *)

Module scenarios.
(** Versions are on the contract's branch; the projection is the
    timestamp. *)
Definition project : branch_history_t → version_t → branch_id_t →
    region_t → state_timestamp_t :=
  λ _ version _ _, version_t.timestamp version.

Definition whole_table : region_t :=
  region_t.mk 0 0 (key_range_t.mk "" None).

Definition branch_maker : server_id_t → version_t → branch_id_t :=
  λ server _, (100 + server)%N.

Definition X : server_id_t := 3%N.
Definition Y : server_id_t := 1%N.
Definition Z : server_id_t := 2%N.
Definition W : server_id_t := 4%N.

Definition primary_on (server : server_id_t) : contract_t.primary_t :=
  contract_t.mk_primary server false nil_uuid None.

(** Scenario B: three voters without a primary, all of them need one. *)
Definition B_old_c : contract_t :=
  contract_t.mk {[X; Y; Z]} {[X; Y; Z]} None None 7%N.
Definition B_config : table_config_t.shard_t :=
  table_config_t.mk_shard {[X; Y; Z]} Y.
Definition B_ack_states : gmap server_id_t contract_ack_t.state_t :=
  {[ X := contract_ack_t.secondary_need_primary;
     Y := contract_ack_t.secondary_need_primary;
     Z := contract_ack_t.secondary_need_primary ]}.
Definition B_ack_versions : gmap server_id_t version_t :=
  {[ X := version_t.mk 7 1; Y := version_t.mk 7 2; Z := version_t.mk 7 3 ]}.

(** One voter needs a primary and its ack carries no version. *)
Definition no_version_old_c : contract_t :=
  contract_t.mk {[X]} {[X]} None None 7%N.
Definition no_version_config : table_config_t.shard_t :=
  table_config_t.mk_shard {[X]} X.
Definition no_version_ack_states :
    gmap server_id_t contract_ack_t.state_t :=
  {[ X := contract_ack_t.secondary_need_primary ]}.

(** A primary on [X] that stays and asks for branch 9. *)
Definition need_branch_old_c : contract_t :=
  contract_t.mk {[X; Y; Z]} {[X; Y; Z]} None (Some (primary_on X)) 7%N.
Definition need_branch_config : table_config_t.shard_t :=
  table_config_t.mk_shard {[X; Y; Z]} X.
Definition need_branch_ack_states :
    gmap server_id_t contract_ack_t.state_t :=
  {[ X := contract_ack_t.primary_need_branch;
     Y := contract_ack_t.secondary_streaming;
     Z := contract_ack_t.secondary_streaming ]}.
Definition need_branch_ack_branches : gmap server_id_t branch_id_t :=
  {[ X := 9%N ]}.

(** The configuration shrinks to the primary alone, and the primary has
    not acked the contract yet. *)
Definition shrink_old_c : contract_t :=
  contract_t.mk {[X; Y; Z]} {[X; Y; Z]} None (Some (primary_on X)) 7%N.
Definition shrink_config : table_config_t.shard_t :=
  table_config_t.mk_shard {[X]} X.
Definition shrink_ack_states : gmap server_id_t contract_ack_t.state_t :=
  {[ Y := contract_ack_t.secondary_streaming;
     Z := contract_ack_t.secondary_streaming ]}.

(** Scenario A with the fourth replica streaming: a primary on [X], the
    configuration adds [W]. *)
Definition grow_old_c : contract_t :=
  contract_t.mk {[X; Y; Z]} {[X; Y; Z]} None (Some (primary_on X)) 7%N.
Definition grow_config : table_config_t.shard_t :=
  table_config_t.mk_shard {[X; Y; Z; W]} X.
Definition grow_ack_states : gmap server_id_t contract_ack_t.state_t :=
  {[ X := contract_ack_t.primary_ready;
     Y := contract_ack_t.secondary_streaming;
     Z := contract_ack_t.secondary_streaming;
     W := contract_ack_t.secondary_streaming ]}.

(** Scenario C: the voter change to [{X, Y, Z}] is in flight and the
    primary reports [primary_ready]. *)
Definition C_old_c : contract_t :=
  contract_t.mk {[X; Y; Z]} {[X; Y]} (Some {[X; Y; Z]})
                (Some (primary_on X)) 7%N.
Definition C_config : table_config_t.shard_t :=
  table_config_t.mk_shard {[X; Y; Z]} X.
Definition C_ack_states : gmap server_id_t contract_ack_t.state_t :=
  {[ X := contract_ack_t.primary_ready;
     Y := contract_ack_t.secondary_streaming;
     Z := contract_ack_t.secondary_streaming ]}.

(** Scenario D: a primary on [X], and [Y] and [Z] cannot reach it. *)
Definition D_old_c : contract_t :=
  contract_t.mk {[X; Y; Z]} {[X; Y; Z]} None (Some (primary_on X)) 7%N.
Definition D_config : table_config_t.shard_t :=
  table_config_t.mk_shard {[X; Y; Z]} X.
Definition D_ack_states : gmap server_id_t contract_ack_t.state_t :=
  {[ Y := contract_ack_t.secondary_need_primary;
     Z := contract_ack_t.secondary_need_primary ]}.

(** [W] left the configuration and the voters but is still a replica. *)
Definition stale_old_c : contract_t :=
  contract_t.mk {[X; Y; Z; W]} {[X; Y; Z]} None (Some (primary_on X)) 7%N.
Definition stale_config : table_config_t.shard_t :=
  table_config_t.mk_shard {[X; Y; Z]} X.

(** Two old contracts on branch 7 that meet at key "m"; the branch
    started on the whole table. *)
Definition two_regions : state_t :=
  state_t.mk
    {[ 1%N := (region_t.mk 0 0 (key_range_t.mk "" (Some "m")), B_old_c);
       2%N := (region_t.mk 0 0 (key_range_t.mk "m" None), B_old_c) ]}.
Definition one_branch : branch_history_t :=
  {[ 7%N := branch_birth_certificate_t.mk
              [(whole_table, version_t.mk nil_uuid 0)] ]}.

(** What [calculate_contract] leaves behind in these scenarios. *)
Definition B_outcome : outcome :=
  mk_outcome
    (contract_t.mk {[X; Y; Z]} {[X; Y; Z]} None (Some (primary_on Y)) 101%N)
    B_old_c [(Y, version_t.mk 7 2)].
Definition need_branch_outcome : outcome :=
  mk_outcome need_branch_old_c
             (contract_t.set_branch 9%N need_branch_old_c) [].
Definition shrink_outcome : outcome :=
  mk_outcome shrink_old_c shrink_old_c [].
Definition grow_outcome : outcome :=
  mk_outcome
    (contract_t.mk {[X; Y; Z; W]} {[X; Y; Z]} (Some {[X; Y; Z; W]})
                   (Some (primary_on X)) 7%N)
    grow_old_c [].
Definition C_outcome : outcome :=
  mk_outcome
    (contract_t.mk {[X; Y; Z]} {[X; Y; Z]} None (Some (primary_on X)) 7%N)
    C_old_c [].
Definition D_outcome : outcome :=
  mk_outcome (contract_t.mk {[X; Y; Z]} {[X; Y; Z]} None None 7%N)
             D_old_c [].
Definition stale_outcome : outcome :=
  mk_outcome
    (contract_t.mk {[X; Y; Z]} {[X; Y; Z]} None (Some (primary_on X)) 7%N)
    stale_old_c [].
End scenarios.

(** ** Conditions of the primary replacement, lines 167-213 *)

Section replacement_conditions.
Context (old_c : contract_t).
Context (config : table_config_t.shard_t).
Context (ack_states : gmap server_id_t contract_ack_t.state_t).

(** Lines 183-187: [should_kill_primary] holds, because the old primary was
    marked at lines 89-91 or because more than half of [new_c.voters]
    cannot reach it. *)
Definition kills_primary : Prop :=
  old_primary_is_stale old_c config
  ∨ size (current_voters old_c ack_states) / 2
    < size (filter (needs_primary ack_states)
                   (current_voters old_c ack_states)).

(** Lines 189-192: the primary [p] is not [config.primary_replica], and
    [config.primary_replica] reports [secondary_streaming]. *)
Definition hand_over_wanted (p : contract_t.primary_t) : Prop :=
  contract_t.server p ≠ table_config_t.primary_replica config
  ∧ ack_states !! table_config_t.primary_replica config
    = Some contract_ack_t.secondary_streaming.

(** Lines 197-200: the hand-over to [config.primary_replica] was requested
    in [old_c] and the primary has acked it with [primary_ready]. *)
Definition hand_over_done (p : contract_t.primary_t) : Prop :=
  contract_t.hand_over p = Some (table_config_t.primary_replica config)
  ∧ ack_states !! contract_t.server p = Some contract_ack_t.primary_ready.
End replacement_conditions.

#[global] Instance old_primary_is_stale_dec old_c config :
  Decision (old_primary_is_stale old_c config).
Proof.
  unfold old_primary_is_stale.
  apply (set_Exists_dec
           (λ x, is_stale old_c config x = true
                 ∧ old_primary_is old_c x = true)).
Defined.

#[global] Instance kills_primary_dec old_c config ack_states :
  Decision (kills_primary old_c config ack_states).
Proof. unfold kills_primary. apply _. Defined.

#[global] Instance hand_over_wanted_dec config ack_states p :
  Decision (hand_over_wanted config ack_states p).
Proof. unfold hand_over_wanted. apply _. Defined.

#[global] Instance hand_over_done_dec config ack_states p :
  Decision (hand_over_done config ack_states p).
Proof. unfold hand_over_done. apply _. Defined.

(** ** The servers whose acks the calculation reads *)

(** [calculate_contract] looks up [ack_states] for the servers of
    [config.replicas] (line 43), the primary of [old_c] (lines 72, 198,
    219), the servers of [new_c.voters] (lines 114, 178), which are
    [old_c.voters] or [old_c.temp_voters], and [config.primary_replica]
    (line 190). *)
Definition relevant_servers (old_c : contract_t)
    (config : table_config_t.shard_t) : gset server_id_t :=
  table_config_t.replicas config
  ∪ contract_t.voters old_c
  ∪ default ∅ (contract_t.temp_voters old_c)
  ∪ {[table_config_t.primary_replica config]}
  ∪ (if contract_t.primary old_c is Some p
     then {[contract_t.server p]} else ∅).

(** ** More concrete inputs *)

Module replacement_scenarios.
Import scenarios.

(** Every replica has acked and follows the primary [X]. *)
Definition steady_ack_states : gmap server_id_t contract_ack_t.state_t :=
  {[ X := contract_ack_t.primary_ready;
     Y := contract_ack_t.secondary_streaming;
     Z := contract_ack_t.secondary_streaming ]}.

(** The primary is [X], and the configuration wants [Y]. *)
Definition handover_old_c : contract_t :=
  contract_t.mk {[X; Y; Z]} {[X; Y; Z]} None (Some (primary_on X)) 7%N.
Definition handover_config : table_config_t.shard_t :=
  table_config_t.mk_shard {[X; Y; Z]} Y.

(** The same after the hand-over to [Y] was requested. *)
Definition handing_over : contract_t.primary_t :=
  contract_t.mk_primary X false nil_uuid (Some Y).
Definition requested_old_c : contract_t :=
  contract_t.mk {[X; Y; Z]} {[X; Y; Z]} None (Some handing_over) 7%N.

(** The primary [W] is a replica that left the configuration and is no
    voter. *)
Definition stale_primary_old_c : contract_t :=
  contract_t.mk {[X; Y; Z; W]} {[X; Y; Z]} None (Some (primary_on W)) 7%N.

(** A voter change to [{X, Y, Z}] is in flight, the primary has not acked,
    and the configuration has moved on to [{X, Y, W}]. *)
Definition in_flight_old_c : contract_t :=
  contract_t.mk {[X; Y; Z]} {[X; Y]} (Some {[X; Y; Z]})
                (Some (primary_on X)) 7%N.
Definition in_flight_config : table_config_t.shard_t :=
  table_config_t.mk_shard {[X; Y; W]} X.
Definition in_flight_ack_states : gmap server_id_t contract_ack_t.state_t :=
  {[ Y := contract_ack_t.secondary_streaming ]}.

(** No primary, and one voter of three needs one. *)
Definition waiting_ack_states : gmap server_id_t contract_ack_t.state_t :=
  {[ X := contract_ack_t.secondary_need_primary ]}.
Definition waiting_ack_versions : gmap server_id_t version_t :=
  {[ X := version_t.mk 7 1 ]}.

(** An ack of [W], which is no replica, no voter and not in the
    configuration of scenario B. *)
Definition stray_ack_states : gmap server_id_t contract_ack_t.state_t :=
  <[W := contract_ack_t.secondary_need_primary]> B_ack_states.
Definition stray_ack_versions : gmap server_id_t version_t :=
  <[W := version_t.mk 7 9]> B_ack_versions.
Definition stray_ack_branches : gmap server_id_t branch_id_t :=
  {[ W := 5%N ]}.

(** What [calculate_contract] leaves behind in these scenarios. *)
Definition handover_outcome : outcome :=
  mk_outcome
    (contract_t.mk {[X; Y; Z]} {[X; Y; Z]} None (Some handing_over) 7%N)
    handover_old_c [].
Definition completed_outcome : outcome :=
  mk_outcome (contract_t.mk {[X; Y; Z]} {[X; Y; Z]} None None 7%N)
             requested_old_c [].
Definition cleared_outcome : outcome :=
  mk_outcome handover_old_c requested_old_c [].
Definition stale_primary_outcome : outcome :=
  mk_outcome (contract_t.mk {[X; Y; Z; W]} {[X; Y; Z]} None None 7%N)
             stale_primary_old_c [].
Definition steady_outcome : outcome := mk_outcome D_old_c D_old_c [].
Definition waiting_outcome : outcome := mk_outcome B_old_c B_old_c [].
Definition in_flight_outcome : outcome :=
  mk_outcome
    (contract_t.mk {[X; Y; Z; W]} {[X; Y]} (Some {[X; Y; Z]})
                   (Some (primary_on X)) 7%N)
    in_flight_old_c [].
End replacement_scenarios.

(** * Properties *)

(** ** Iteration over sets and the loops that count *)

Section iteration.
Lemma iter_Permutation (s : gset N) : iter s ≡ₚ elements s.
Proof. apply merge_sort_Permutation. Qed.

Lemma elem_of_iter (s : gset N) (x : N) : x ∈ iter s ↔ x ∈ s.
Proof. by rewrite iter_Permutation, elem_of_elements. Qed.

Lemma Sorted_iter (s : gset N) : Sorted N.le (iter s).
Proof. apply (Sorted_merge_sort N.le). Qed.

(** A loop that increments a counter on the elements that pass a test
    counts the elements of the set that pass it. *)
Lemma count_loop_list (f : nat → N → nat) (P : N → Prop)
    `{!∀ x, Decision (P x)} (l : list N) (n : nat) :
  (∀ n x, f n x = if decide (P x) then S n else n) →
  foldl f n l = n + length (filter P l).
Proof.
  intros Hf. induction l as [|x l IH] in n |- *; simpl; [lia|].
  rewrite IH, Hf. case_decide.
  - rewrite filter_cons_True by done. simpl. lia.
  - rewrite filter_cons_False by done. done.
Qed.

Lemma size_filter_elements (P : N → Prop) `{!∀ x, Decision (P x)}
    (s : gset N) :
  size (filter P s) = length (filter P (elements s)).
Proof.
  unfold filter at 1, set_filter. unfold size, set_size. simpl.
  rewrite elements_list_to_set; [done|].
  apply NoDup_filter, NoDup_elements.
Qed.

Lemma count_loop (f : nat → N → nat) (P : N → Prop)
    `{!∀ x, Decision (P x)} (s : gset N) :
  (∀ n x, f n x = if decide (P x) then S n else n) →
  foldl f 0 (iter s) = size (filter P s).
Proof.
  intros Hf. rewrite (count_loop_list f P) by done.
  rewrite size_filter_elements. simpl. by rewrite iter_Permutation.
Qed.
End iteration.

(** ** The steps of [calculate_contract], one field at a time *)

Section steps.
Context (old_c : contract_t).
Context (config : table_config_t.shard_t).
Context (ack_states : gmap server_id_t contract_ack_t.state_t).

Lemma acked_true (server : server_id_t) (st : contract_ack_t.state_t) :
  acked ack_states server st = true ↔ ack_states !! server = Some st.
Proof.
  unfold acked, map_count. destruct (ack_states !! server) as [st'|]; simpl.
  - rewrite bool_decide_eq_true. split; congruence.
  - split; congruence.
Qed.

Lemma old_primary_is_server (server : server_id_t) :
  old_primary_is old_c server = true
  ↔ old_primary_server old_c = Some server.
Proof.
  unfold old_primary_is, old_primary_server.
  destruct (contract_t.primary old_c) as [p|]; simpl.
  - rewrite bool_decide_eq_true. split; congruence.
  - split; congruence.
Qed.

Lemma is_stale_true (server : server_id_t) :
  is_stale old_c config server = true
  ↔ (server ∉ table_config_t.replicas config)
    ∧ (server ∉ contract_t.voters old_c)
    ∧ (∀ tv, contract_t.temp_voters old_c = Some tv → server ∉ tv).
Proof.
  unfold is_stale, set_count.
  rewrite !andb_true_iff.
  destruct (decide (server ∈ table_config_t.replicas config));
    destruct (decide (server ∈ contract_t.voters old_c));
    destruct (contract_t.temp_voters old_c) as [tv|];
    try destruct (decide (server ∈ tv)); simpl;
    split; try (intros ((? & ?) & ?); done); try (intros (? & ? & ?); done).
  - intros (_ & _ & Htv). by destruct (Htv tv).
  - intros _. split_and!; try done. by intros ? [= <-].
Qed.

(** Lines 31-36 only grow [replicas]. *)
Lemma add_new_replicas_list (l : list server_id_t) (c : contract_t) :
  let c' := foldl (λ new_c server,
              if set_count (contract_t.replicas new_c) server =? 0
              then contract_t.set_replicas
                     ({[server]} ∪ contract_t.replicas new_c) new_c
              else new_c) c l in
  contract_t.replicas c' = contract_t.replicas c ∪ list_to_set l
  ∧ contract_t.voters c' = contract_t.voters c
  ∧ contract_t.temp_voters c' = contract_t.temp_voters c
  ∧ contract_t.primary c' = contract_t.primary c
  ∧ contract_t.branch c' = contract_t.branch c.
Proof.
  induction l as [|x l IH] in c |- *; simpl.
  { split_and!; try done. set_solver. }
  destruct (set_count (contract_t.replicas c) x =? 0) eqn:Hx.
  - destruct (IH (contract_t.set_replicas
                    ({[x]} ∪ contract_t.replicas c) c))
      as (-> & ? & ? & ? & ?).
    split_and!; try done. simpl. set_solver.
  - destruct (IH c) as (-> & ? & ? & ? & ?). split_and!; try done.
    unfold set_count in Hx. case_decide; [set_solver|done].
Qed.

Lemma add_new_replicas_fields (c : contract_t) :
  let c' := add_new_replicas config c in
  contract_t.replicas c'
    = contract_t.replicas c ∪ table_config_t.replicas config
  ∧ contract_t.voters c' = contract_t.voters c
  ∧ contract_t.temp_voters c' = contract_t.temp_voters c
  ∧ contract_t.primary c' = contract_t.primary c
  ∧ contract_t.branch c' = contract_t.branch c.
Proof.
  simpl. unfold add_new_replicas.
  destruct (add_new_replicas_list (iter (table_config_t.replicas config)) c)
    as (-> & ? & ? & ? & ?).
  split_and!; try done. f_equal.
  apply set_eq. intros x. by rewrite elem_of_list_to_set, elem_of_iter.
Qed.

(** Lines 80-96 remove from [replicas] the stale servers other than the
    old primary, and raise [should_kill_primary] when the old primary is a
    stale member of [old_c.replicas]. *)
Lemma remove_old_replicas_list (l : list server_id_t) (c : contract_t)
    (k : bool) :
  let r := foldl (λ '(new_c, should_kill_primary) server,
             if is_stale old_c config server then
               if old_primary_is old_c server then (new_c, true)
               else (contract_t.set_replicas
                       (contract_t.replicas new_c ∖ {[server]}) new_c,
                     should_kill_primary)
             else (new_c, should_kill_primary)) (c, k) l in
  (∀ x, x ∈ contract_t.replicas r.1
        ↔ x ∈ contract_t.replicas c
          ∧ ¬ (x ∈ l ∧ is_stale old_c config x = true
               ∧ old_primary_is old_c x = false))
  ∧ contract_t.voters r.1 = contract_t.voters c
  ∧ contract_t.temp_voters r.1 = contract_t.temp_voters c
  ∧ contract_t.primary r.1 = contract_t.primary c
  ∧ contract_t.branch r.1 = contract_t.branch c
  ∧ (r.2 = true
     ↔ k = true ∨ ∃ x, x ∈ l ∧ is_stale old_c config x = true
                      ∧ old_primary_is old_c x = true).
Proof.
  induction l as [|x l IH] in c, k |- *; simpl.
  { split_and!; try done; [set_solver|]. split; [by left|].
    intros [?|(? & []%elem_of_nil & _)]; done. }
  destruct (is_stale old_c config x) eqn:Hs;
    [destruct (old_primary_is old_c x) eqn:Hp|].
  - destruct (IH c true) as (Hr & ? & ? & ? & ? & Hk).
    split_and!; try done.
    + intros y. rewrite Hr. apply and_iff_compat_l.
      split; intros Hn (Hin & ? & ?); apply Hn.
      * split_and!; try done.
        apply elem_of_cons in Hin as [->|?]; [congruence|done].
      * split_and!; try done. by right.
    + rewrite Hk. split; [|by left]. intros _. right. exists x.
      split_and!; try done. by left.
  - destruct (IH (contract_t.set_replicas
                    (contract_t.replicas c ∖ {[x]}) c) k)
      as (Hr & ? & ? & ? & ? & Hk).
    split_and!; try done.
    + intros y. rewrite Hr. simpl. rewrite elem_of_difference.
      rewrite elem_of_singleton, elem_of_cons.
      split.
      * intros [[Hy Hne] Hn]. split; [done|]. intros ([->|Hin] & ? & ?); tauto.
      * intros [Hy Hn]. split_and!; [done| |tauto].
        intros ->. apply Hn. tauto.
    + rewrite Hk. apply or_iff_compat_l. split.
      * intros (y & ? & ? & ?). exists y. split_and!; try done. by right.
      * intros (y & [->|?]%elem_of_cons & ? & ?); [congruence|]. by exists y.
  - destruct (IH c k) as (Hr & ? & ? & ? & ? & Hk).
    split_and!; try done.
    + intros y. rewrite Hr. apply and_iff_compat_l.
      split; intros Hn (Hin & ? & ?); apply Hn.
      * split_and!; try done. apply elem_of_cons in Hin as [->|?]; [congruence|done].
      * split_and!; try done. by right.
    + rewrite Hk. apply or_iff_compat_l. split.
      * intros (y & ? & ? & ?). exists y. split_and!; try done. by right.
      * intros (y & [->|?]%elem_of_cons & ? & ?); [congruence|]. by exists y.
Qed.

Lemma remove_old_replicas_fields (c : contract_t) :
  let r := remove_old_replicas old_c config c in
  (∀ x, x ∈ contract_t.replicas r.1
        ↔ x ∈ contract_t.replicas c
          ∧ ¬ (x ∈ contract_t.replicas old_c
               ∧ is_stale old_c config x = true
               ∧ old_primary_is old_c x = false))
  ∧ contract_t.voters r.1 = contract_t.voters c
  ∧ contract_t.temp_voters r.1 = contract_t.temp_voters c
  ∧ contract_t.primary r.1 = contract_t.primary c
  ∧ contract_t.branch r.1 = contract_t.branch c
  ∧ (r.2 = true
     ↔ ∃ x, x ∈ contract_t.replicas old_c
            ∧ is_stale old_c config x = true
            ∧ old_primary_is old_c x = true).
Proof.
  simpl. unfold remove_old_replicas.
  destruct (remove_old_replicas_list
              (iter (contract_t.replicas old_c)) c false)
    as (Hr & ? & ? & ? & ? & Hk).
  split_and!; try done.
  - intros x. rewrite Hr. by rewrite elem_of_iter.
  - rewrite Hk. split.
    + intros [?|(x & ?%elem_of_iter & ?)]; [done|]. by exists x.
    + intros (x & ?%elem_of_iter & ?). right. by exists x.
Qed.

(** Lines 41-50 count the servers of [config.replicas] that have acked
    and stream or are the old primary. *)
Lemma num_streaming_size :
  num_streaming old_c config ack_states
  = size (filter (acked_streaming_or_primary old_c ack_states)
                 (table_config_t.replicas config)).
Proof.
  unfold num_streaming. apply count_loop. intros n x.
  destruct (decide (acked_streaming_or_primary old_c ack_states x))
    as [[[st Hst] Hor]|Hn].
  - rewrite Hst.
    assert (bool_decide (st = contract_ack_t.secondary_streaming)
            || old_primary_is old_c x = true) as ->; [|done].
    apply orb_true_iff. destruct Hor as [Hs|Hp].
    + left. apply bool_decide_eq_true. congruence.
    + right. by apply old_primary_is_server.
  - destruct (ack_states !! x) as [st|] eqn:Hst; [|done].
    assert (bool_decide (st = contract_ack_t.secondary_streaming)
            || old_primary_is old_c x = false) as ->; [|done].
    apply not_true_is_false. intros Hor. apply Hn.
    split; [by eexists|].
    apply orb_true_iff in Hor as [->%bool_decide_eq_true|Hp].
    + by left.
    + right. by apply old_primary_is_server.
Qed.

(** Lines 176-182 count the voters that need a primary. *)
Lemma voters_cant_reach_primary_size (c : contract_t) :
  voters_cant_reach_primary ack_states c
  = size (filter (needs_primary ack_states) (contract_t.voters c)).
Proof.
  unfold voters_cant_reach_primary. apply count_loop. intros n x.
  destruct (acked ack_states x contract_ack_t.secondary_need_primary)
    eqn:Ha.
  - apply acked_true in Ha. by rewrite decide_True.
  - rewrite decide_False; [done|]. intros ?%acked_true. congruence.
Qed.

(** Lines 126-132 pick [config.primary_replica] when it is in the part of
    the vector the loop visits, and the last entry otherwise. *)
Lemma select_loop_primary_replica
    (tail : list (state_timestamp_t * server_id_t))
    (init : option server_id_t) :
  table_config_t.primary_replica config ∈ tail.*2 →
  select_loop config tail init
  = Some (table_config_t.primary_replica config).
Proof.
  induction tail as [|e tail IH] in init |- *; simpl.
  { by intros ?%elem_of_nil. }
  intros [Heq|Hin]%elem_of_cons; case_bool_decide as He;
    try done; try (by rewrite He).
  by apply IH.
Qed.

Lemma select_loop_last
    (tail : list (state_timestamp_t * server_id_t))
    (init : option server_id_t) :
  table_config_t.primary_replica config ∉ tail.*2 →
  select_loop config tail init
  = match last tail with Some e => Some e.2 | None => init end.
Proof.
  induction tail as [|e tail IH] in init |- *; simpl; [done|].
  intros Hnin. apply not_elem_of_cons in Hnin as [Hne Hnin].
  rewrite bool_decide_eq_false_2 by done.
  rewrite IH by done. destruct tail as [|e' tail]; [done|].
  change (last (e :: e' :: tail)) with (last (e' :: tail)).
  destruct (last (e' :: tail)) eqn:Hl; [done|].
  by apply last_None in Hl.
Qed.

(** Lines 40 and 63 test [old_c.temp_voters] in opposite ways. *)
Lemma initiates_commits_exclusive :
  initiates_voter_change old_c config ack_states
  && commits_voter_change old_c ack_states = false.
Proof.
  unfold initiates_voter_change, commits_voter_change.
  destruct (contract_t.temp_voters old_c); simpl; [done|].
  by rewrite andb_false_r.
Qed.

Lemma commits_voter_change_true :
  commits_voter_change old_c ack_states = true
  ↔ ∃ tv p, contract_t.temp_voters old_c = Some tv
            ∧ contract_t.primary old_c = Some p
            ∧ ack_states !! contract_t.server p
              = Some contract_ack_t.primary_ready.
Proof.
  unfold commits_voter_change.
  destruct (contract_t.temp_voters old_c) as [tv|]; simpl.
  - destruct (contract_t.primary old_c) as [p|].
    + rewrite acked_true. split; [by exists tv, p|].
      by intros (? & ? & _ & [= <-] & ?).
    + split; [done|]. by intros (? & ? & _ & ? & _).
  - split; [done|]. by intros (? & ? & ? & _).
Qed.

(** Lines 31-78: what [new_c] is after the commit step. *)
Lemma voter_steps_fields :
  ∃ c, commit_voter_change old_c ack_states
         (initiate_voter_change old_c config ack_states
            (add_new_replicas config old_c)) = Ok c
    ∧ contract_t.replicas c
      = contract_t.replicas old_c ∪ table_config_t.replicas config
    ∧ contract_t.voters c = current_voters old_c ack_states
    ∧ contract_t.temp_voters c
      = (if commits_voter_change old_c ack_states then None
         else if initiates_voter_change old_c config ack_states
              then Some (table_config_t.replicas config)
              else contract_t.temp_voters old_c)
    ∧ contract_t.primary c = contract_t.primary old_c
    ∧ contract_t.branch c = contract_t.branch old_c.
Proof.
  destruct (add_new_replicas_fields old_c) as (Hr & Hv & Ht & Hp & Hb).
  pose proof initiates_commits_exclusive as Hex.
  unfold commit_voter_change, initiate_voter_change, current_voters.
  destruct (commits_voter_change old_c ack_states) eqn:Hc.
  - rewrite andb_true_r in Hex. rewrite Hex.
    apply commits_voter_change_true in Hc as (tv & p & Htv & Hpr & Hack).
    rewrite Ht, Htv, Hpr. simpl. rewrite decide_True by done.
    eexists. split; [done|]. simpl. by rewrite Hr, Hp, Hb.
  - assert (match contract_t.temp_voters old_c, contract_t.primary old_c with
            | Some temp_voters, Some p =>
                if decide (ack_states !! contract_t.server p
                           = Some contract_ack_t.primary_ready)
                then temp_voters else contract_t.voters old_c
            | _, _ => contract_t.voters old_c
            end = contract_t.voters old_c) as ->.
    { destruct (contract_t.temp_voters old_c) as [tv|] eqn:Htv; [|done].
      destruct (contract_t.primary old_c) as [p|] eqn:Hpr; [|done].
      rewrite decide_False; [done|]. intros Hack.
      assert (commits_voter_change old_c ack_states = true) as Hc'.
      { apply commits_voter_change_true. by exists tv, p. }
      congruence. }
    destruct (initiates_voter_change old_c config ack_states);
      eexists; (split; [done|]); simpl; by rewrite ?Hr, ?Hv, ?Ht, ?Hp, ?Hb.
Qed.

(** Lines 167-213, entered with the old primary still in [new_c]. *)
Lemma replace_primary_fields (k : bool) (c : contract_t)
    (p : contract_t.primary_t) :
  contract_t.primary old_c = Some p →
  contract_t.primary c = Some p →
  ∃ c', replace_primary old_c config ack_states k c = Ok c'
    ∧ contract_t.replicas c' = contract_t.replicas c
    ∧ contract_t.voters c' = contract_t.voters c
    ∧ contract_t.temp_voters c' = contract_t.temp_voters c
    ∧ contract_t.branch c' = contract_t.branch c
    ∧ (contract_t.primary c' = None
       ∨ ∃ h, contract_t.primary c' = Some (contract_t.set_hand_over h p))
    ∧ (k = true
       ∨ size (contract_t.voters c) / 2
         < size (filter (needs_primary ack_states) (contract_t.voters c))
       → contract_t.primary c' = None).
Proof.
  intros Hold Hc. unfold replace_primary.
  rewrite Hold, voters_cant_reach_primary_size, Hc. simpl.
  destruct (_ <? _) eqn:Hlt.
  { eexists. split; [done|]. simpl. split_and!; try done. by left. }
  apply Nat.ltb_ge in Hlt.
  destruct k.
  { eexists. split; [done|]. simpl. split_and!; try done. by left. }
  assert (∀ (P : Prop), false = true
            ∨ size (contract_t.voters c) / 2
              < size (filter (needs_primary ack_states)
                             (contract_t.voters c)) → P) as Hno.
  { intros P [?|?]; [done|lia]. }
  destruct (_ && _); [destruct (_ && _)|];
    (eexists; split; [done|]); simpl; split_and!; try done;
    try (by left); try (right; by eexists); apply Hno.
Qed.

Lemma replace_primary_no_primary (k : bool) (c : contract_t) :
  contract_t.primary old_c = None →
  replace_primary old_c config ack_states k c = Ok c.
Proof. intros Hold. unfold replace_primary. by rewrite Hold. Qed.
End steps.

(** ** The election, lines 98-151 *)

#[global] Instance pair_le_total : Total pair_le.
Proof. intros [t1 s1] [t2 s2]. unfold pair_le. simpl. lia. Qed.

#[global] Instance pair_le_trans : Transitive pair_le.
Proof. intros [t1 s1] [t2 s2] [t3 s3]. unfold pair_le. simpl. lia. Qed.

#[global] Instance pair_le_antisymm : AntiSymm (=) pair_le.
Proof.
  intros [t1 s1] [t2 s2]. unfold pair_le. simpl.
  intros H1 H2. f_equal; lia.
Qed.

Section election.
Context (branch_history : branch_history_t).
Context (version_project_to_branch :
  branch_history_t → version_t → branch_id_t → region_t → state_timestamp_t).
Context (region : region_t).
Context (old_c : contract_t).
Context (config : table_config_t.shard_t).
Context (ack_states : gmap server_id_t contract_ack_t.state_t).
Context (ack_versions : gmap server_id_t version_t).
Context (branch_maker : server_id_t → version_t → branch_id_t).

Local Abbreviation candidate_of' :=
  (candidate_of branch_history version_project_to_branch region old_c
                ack_states ack_versions).
Local Abbreviation candidates' :=
  (candidates branch_history version_project_to_branch region old_c
              ack_states ack_versions).
Local Abbreviation eligible' :=
  (eligible branch_history version_project_to_branch region old_c
            ack_states ack_versions).
Local Abbreviation project v :=
  (version_project_to_branch branch_history v (contract_t.branch old_c)
                             region).

Lemma candidate_of_Some (server : server_id_t)
    (e : state_timestamp_t * server_id_t) :
  candidate_of' server = Some e
  ↔ needs_primary ack_states server
    ∧ ∃ v, ack_versions !! server = Some v ∧ e = (project v, server).
Proof.
  unfold candidate_of. case_decide as Hn.
  - destruct (ack_versions !! server) as [v|]; simpl.
    + split.
      * intros [= <-]. split; [done|]. by exists v.
      * intros (_ & v' & [= <-] & ->). done.
    + split; [done|]. intros (_ & v' & ? & _). done.
  - split; [done|]. intros (? & _). done.
Qed.

(** The loop of lines 113-120 throws at the first voter that needs a
    primary and has no version, and otherwise appends the candidates in
    iteration order. *)
Lemma collect_replica_states_Ok (servers : list server_id_t)
    (acc l : list (state_timestamp_t * server_id_t)) :
  collect_replica_states branch_history version_project_to_branch region
    old_c ack_states ack_versions servers acc = Ok l
  ↔ (∀ s, s ∈ servers → needs_primary ack_states s →
          is_Some (ack_versions !! s))
    ∧ l = acc ++ omap candidate_of' servers.
Proof.
  induction servers as [|x servers IH] in acc |- *; simpl.
  { rewrite app_nil_r. split.
    - intros [= <-]. split; [|done]. by intros ? ?%elem_of_nil.
    - intros (_ & ->). done. }
  destruct (acked ack_states x contract_ack_t.secondary_need_primary)
    eqn:Ha.
  - apply acked_true in Ha.
    unfold map_at. destruct (ack_versions !! x) as [v|] eqn:Hv; simpl.
    + rewrite IH.
      assert (candidate_of' x = Some (project v, x)) as ->.
      { apply candidate_of_Some. split; [done|]. by exists v. }
      rewrite <- app_assoc. simpl.
      apply and_iff_compat_r. split.
      * intros H s [->|?]%elem_of_cons ?; [by eexists|by apply H].
      * intros H s ? ?. apply H; [by right|done].
    + split; [done|]. intros (H & _).
      destruct (H x) as [? ?]; [by left|done|congruence].
  - assert (candidate_of' x = None) as ->.
    { destruct (candidate_of' x) as [e|] eqn:He; [|done].
      apply candidate_of_Some in He as (Hn & _).
      apply acked_true in Hn. congruence. }
    rewrite IH. apply and_iff_compat_r. split.
    + intros H s [->|?]%elem_of_cons Hn; [|by apply H].
      apply acked_true in Hn. congruence.
    + intros H s ? ?. apply H; [by right|done].
Qed.

Lemma collect_replica_states_Throw (servers : list server_id_t)
    (acc : list (state_timestamp_t * server_id_t)) (e : error_t) :
  collect_replica_states branch_history version_project_to_branch region
    old_c ack_states ack_versions servers acc = Throw e →
  e = out_of_range.
Proof.
  induction servers as [|x servers IH] in acc |- *; simpl; [done|].
  destruct (acked ack_states x contract_ack_t.secondary_need_primary);
    [|apply IH].
  unfold map_at. destruct (ack_versions !! x) as [v|]; simpl.
  - apply IH.
  - by intros [= <-].
Qed.

Lemma candidates_Permutation :
  candidates' ≡ₚ omap candidate_of' (iter (contract_t.voters old_c)).
Proof. apply merge_sort_Permutation. Qed.

(** The candidates are the voters that need a primary and sent a version,
    each paired with its projected timestamp. *)
Lemma elem_of_candidates (t : state_timestamp_t) (s : server_id_t) :
  (t, s) ∈ candidates'
  ↔ s ∈ contract_t.voters old_c
    ∧ needs_primary ack_states s
    ∧ ∃ v, ack_versions !! s = Some v ∧ t = project v.
Proof.
  rewrite candidates_Permutation, list_elem_of_omap. split.
  - intros (x & Hx%elem_of_iter & (Hn & v & Hv & [= -> ->])%candidate_of_Some).
    split_and!; try done. by exists v.
  - intros (Hs & Hn & v & Hv & ->). exists s. split; [by apply elem_of_iter|].
    apply candidate_of_Some. split; [done|]. by exists v.
Qed.

Lemma Sorted_candidates : Sorted pair_le candidates'.
Proof. apply (Sorted_merge_sort pair_le). Qed.

Lemma length_omap_candidate_of (l : list server_id_t) :
  length (omap candidate_of' l)
  = length (filter (needs_primary_with_version ack_states ack_versions) l).
Proof.
  induction l as [|x l IH]; simpl; [done|].
  destruct (candidate_of' x) as [e|] eqn:He.
  - apply candidate_of_Some in He as (Hn & v & Hv & _).
    rewrite filter_cons_True; [simpl; f_equal; exact IH|].
    split; [done|by eexists].
  - rewrite filter_cons_False; [exact IH|]. intros [Hn [v Hv]].
    assert (candidate_of' x = Some (project v, x)) as Hc; [|congruence].
    apply candidate_of_Some. split; [done|]. by exists v.
Qed.

(** There is one candidate per voter that needs a primary and sent a
    version. *)
Lemma length_candidates :
  length candidates'
  = size (filter (needs_primary_with_version ack_states ack_versions)
                 (contract_t.voters old_c)).
Proof.
  rewrite candidates_Permutation, length_omap_candidate_of.
  rewrite size_filter_elements. by rewrite iter_Permutation.
Qed.

Lemma select_loop_elem_of (tail : list (state_timestamp_t * server_id_t))
    (new_primary : server_id_t) :
  select_loop config tail None = Some new_primary →
  new_primary ∈ tail.*2.
Proof.
  destruct (decide (table_config_t.primary_replica config ∈ tail.*2))
    as [Hin|Hnin].
  - rewrite select_loop_primary_replica by done. by intros [= <-].
  - rewrite select_loop_last by done.
    destruct (last tail) as [e|] eqn:Hl; [|done]. intros [= <-].
    apply list_elem_of_fmap. exists e. split; [done|].
    apply last_Some in Hl as [l' ->]. apply elem_of_app. right. by left.
Qed.

(** The election as a whole, when [old_c] has no primary. *)
Lemma elect_primary_Ok (c c' : contract_t)
    (calls : list (server_id_t * version_t)) :
  contract_t.primary old_c = None →
  contract_t.voters c = contract_t.voters old_c →
  elect_primary branch_history version_project_to_branch region old_c
    config ack_states ack_versions branch_maker c = Ok (c', calls)
  ↔ (∀ s, s ∈ contract_t.voters old_c → needs_primary ack_states s →
          is_Some (ack_versions !! s))
    ∧ match select_loop config eligible' None with
      | Some new_primary =>
          ∃ v, ack_versions !! new_primary = Some v
            ∧ c' = contract_t.set_branch (branch_maker new_primary v)
                     (contract_t.set_primary
                        (Some (contract_t.mk_primary
                                 new_primary false nil_uuid None)) c)
            ∧ calls = [(new_primary, v)]
      | None => c' = c ∧ calls = []
      end.
Proof.
  intros Hold Hv. unfold elect_primary, select_new_primary, eligible.
  rewrite Hold, Hv. simpl.
  destruct (collect_replica_states _ _ _ _ _ _ _ _) as [l|e] eqn:Hl; simpl.
  - apply collect_replica_states_Ok in Hl as [Hvers ->]. simpl.
    fold candidates'.
    assert (∀ P : Prop, P ↔ (∀ s, s ∈ contract_t.voters old_c →
              needs_primary ack_states s → is_Some (ack_versions !! s)) ∧ P)
      as Hdrop.
    { intros P. split; [|tauto]. intros HP. split; [|done].
      intros s ?%elem_of_iter ?. by apply Hvers. }
    rewrite <- Hdrop.
    destruct (select_loop config _ None) as [np|]; simpl.
    + unfold map_at. destruct (ack_versions !! np) as [v|]; simpl.
      * split.
        -- intros [= <- <-]. by exists v.
        -- intros (v' & [= <-] & -> & ->). done.
      * split; [done|]. intros (v' & ? & _). done.
    + split; [by intros [= <- <-]|by intros [-> ->]].
  - split; [done|]. intros [Hvers _].
    assert (collect_replica_states branch_history version_project_to_branch
              region old_c ack_states ack_versions
              (iter (contract_t.voters old_c)) []
            = Ok ([] ++ omap candidate_of' (iter (contract_t.voters old_c))))
      as Hok; [|congruence].
    apply collect_replica_states_Ok. split; [|done].
    intros s ?%elem_of_iter ?. by apply Hvers.
Qed.

Lemma elect_primary_has_primary (c : contract_t) :
  is_Some (contract_t.primary old_c) →
  elect_primary branch_history version_project_to_branch region old_c
    config ack_states ack_versions branch_maker c = Ok (c, []).
Proof. intros [p Hp]. unfold elect_primary. by rewrite Hp. Qed.
End election.

(** ** The whole of [calculate_contract] *)

Section calculator.
Context (branch_history : branch_history_t).
Context (version_project_to_branch :
  branch_history_t → version_t → branch_id_t → region_t → state_timestamp_t).
Context (region : region_t).
Context (old_c : contract_t).
Context (config : table_config_t.shard_t).
Context (ack_states : gmap server_id_t contract_ack_t.state_t).
Context (ack_versions : gmap server_id_t version_t).
Context (ack_branches : gmap server_id_t branch_id_t).
Context (branch_maker : server_id_t → version_t → branch_id_t).

Local Abbreviation calculate_contract' :=
  (calculate_contract branch_history version_project_to_branch region old_c
     config ack_states ack_versions ack_branches branch_maker).
Local Abbreviation eligible' :=
  (eligible branch_history version_project_to_branch region old_c
            ack_states ack_versions).

(** What a call that returns has computed, field by field. *)
Lemma calculate_contract_fields (o : outcome) :
  calculate_contract' = Ok o →
  (∀ x, x ∈ contract_t.replicas (returned o)
        ↔ x ∈ contract_t.replicas old_c ∪ table_config_t.replicas config
          ∧ ¬ (x ∈ contract_t.replicas old_c
               ∧ is_stale old_c config x = true
               ∧ old_primary_is old_c x = false))
  ∧ contract_t.voters (returned o) = current_voters old_c ack_states
  ∧ contract_t.temp_voters (returned o)
    = (if commits_voter_change old_c ack_states then None
       else if initiates_voter_change old_c config ack_states
            then Some (table_config_t.replicas config)
            else contract_t.temp_voters old_c)
  ∧ match contract_t.primary old_c with
    | None =>
        (∀ s, s ∈ contract_t.voters old_c → needs_primary ack_states s →
              is_Some (ack_versions !! s))
        ∧ old_c_after o = old_c
        ∧ match select_loop config eligible' None with
          | Some new_primary =>
              ∃ v, ack_versions !! new_primary = Some v
                ∧ contract_t.primary (returned o)
                  = Some (contract_t.mk_primary
                            new_primary false nil_uuid None)
                ∧ contract_t.branch (returned o) = branch_maker new_primary v
                ∧ branch_maker_calls o = [(new_primary, v)]
          | None =>
              contract_t.primary (returned o) = None
              ∧ contract_t.branch (returned o) = contract_t.branch old_c
              ∧ branch_maker_calls o = []
          end
    | Some p =>
        contract_t.branch (returned o) = contract_t.branch old_c
        ∧ branch_maker_calls o = []
        ∧ (contract_t.primary (returned o) = None
           ∨ ∃ h, contract_t.primary (returned o)
                  = Some (contract_t.set_hand_over h p))
        ∧ (old_primary_is_stale old_c config
           ∨ size (current_voters old_c ack_states) / 2
             < size (filter (needs_primary ack_states)
                            (current_voters old_c ack_states))
           → contract_t.primary (returned o) = None)
        ∧ (if decide (is_Some (contract_t.primary (returned o))
                      ∧ ack_states !! contract_t.server p
                        = Some contract_ack_t.primary_need_branch)
           then ∃ b, ack_branches !! contract_t.server p = Some b
                     ∧ old_c_after o = contract_t.set_branch b old_c
           else old_c_after o = old_c)
    end.
Proof.
  unfold calculate_contract.
  destruct (voter_steps_fields old_c config ack_states)
    as (c3 & -> & Hr3 & Hv3 & Ht3 & Hp3 & Hb3). simpl.
  pose proof (remove_old_replicas_fields old_c config c3) as Hrem.
  destruct (remove_old_replicas old_c config c3) as [c4 k].
  simpl in Hrem. destruct Hrem as (Hr4 & Hv4 & Ht4 & Hp4 & Hb4 & Hk).
  destruct (contract_t.primary old_c) as [p|] eqn:Hold.
  - rewrite elect_primary_has_primary by (rewrite Hold; by eexists). simpl.
    destruct (replace_primary_fields old_c config ack_states k c4 p)
      as (c6 & -> & Hr6 & Hv6 & Ht6 & Hb6 & Hp6 & Hkill);
      [done|congruence|]. simpl.
    assert (old_primary_is_stale old_c config
            ∨ size (current_voters old_c ack_states) / 2
              < size (filter (needs_primary ack_states)
                             (current_voters old_c ack_states))
            → contract_t.primary c6 = None) as Hkill'.
    { intros [Hs|Hc]; apply Hkill.
      - left. by apply Hk.
      - right. by rewrite Hv4, Hv3. }
    assert (∀ x, x ∈ contract_t.replicas c6
              ↔ x ∈ contract_t.replicas old_c
                    ∪ table_config_t.replicas config
                ∧ ¬ (x ∈ contract_t.replicas old_c
                     ∧ is_stale old_c config x = true
                     ∧ old_primary_is old_c x = false)) as Hr6'.
    { intros x. by rewrite Hr6, Hr4, Hr3. }
    unfold register_branch. rewrite Hold.
    destruct (contract_t.primary c6) as [q|] eqn:Hq.
    + destruct Hp6 as [?|[h Hh]]; [done|]. injection Hh as ->. simpl.
      rewrite bool_decide_eq_true_2 by done. simpl.
      destruct (acked ack_states (contract_t.server p)
                  contract_ack_t.primary_need_branch) eqn:Ha.
      * apply acked_true in Ha. unfold map_at.
        destruct (ack_branches !! contract_t.server p) as [b|] eqn:Hb;
          simpl; [|done].
        intros [= <-]. simpl. rewrite Hq.
        split_and!; try congruence; try exact Hr6'.
        -- right. by eexists.
        -- intros Hcase. apply Hkill' in Hcase. congruence.
        -- rewrite decide_True by (split; [by eexists|done]). by exists b.
      * intros [= <-]. simpl. rewrite Hq.
        split_and!; try congruence; try exact Hr6'.
        -- right. by eexists.
        -- intros Hcase. apply Hkill' in Hcase. congruence.
        -- rewrite decide_False; [done|]. intros [_ ?%acked_true]. congruence.
    + simpl. intros [= <-]. simpl. rewrite Hq.
      split_and!; try congruence; exact Hr6'.
  - assert (contract_t.voters c4 = contract_t.voters old_c) as Hv4'.
    { rewrite Hv4, Hv3. unfold current_voters. rewrite Hold.
      by destruct (contract_t.temp_voters old_c). }
    destruct (elect_primary _ _ _ _ _ _ _ _ c4) as [[c5 calls]|e] eqn:He;
      simpl; [|done].
    apply elect_primary_Ok in He as [Hvers Hsel]; [|done..].
    rewrite replace_primary_no_primary by done. simpl.
    unfold register_branch. rewrite Hold. simpl. intros [= <-]. simpl.
    destruct (select_loop config eligible' None) as [np|].
    + destruct Hsel as (v & Hv & -> & ->). simpl.
      split_and!; try done; try congruence.
      * intros x. rewrite Hr4, Hr3. done.
      * by exists v.
    + destruct Hsel as [-> ->]. split_and!; try done; try congruence.
      intros x. rewrite Hr4, Hr3. done.
Qed.

(** A call returns when the two lookups that can throw find their key:
    [ack_versions.at] for the voters that need a primary (reached only
    when [old_c] has no primary), and [ack_branches.at] for a primary that
    asks for a branch (reached only when the primary is kept). *)
Lemma calculate_contract_returns :
  (contract_t.primary old_c = None →
   ∀ s, s ∈ contract_t.voters old_c → needs_primary ack_states s →
        is_Some (ack_versions !! s)) →
  (∀ p, contract_t.primary old_c = Some p →
        ack_states !! contract_t.server p
        = Some contract_ack_t.primary_need_branch →
        ¬ (old_primary_is_stale old_c config
           ∨ size (current_voters old_c ack_states) / 2
             < size (filter (needs_primary ack_states)
                            (current_voters old_c ack_states))) →
        is_Some (ack_branches !! contract_t.server p)) →
  ∃ o, calculate_contract' = Ok o.
Proof.
  intros Hvers Hbr. unfold calculate_contract.
  destruct (voter_steps_fields old_c config ack_states)
    as (c3 & -> & Hr3 & Hv3 & Ht3 & Hp3 & Hb3). simpl.
  pose proof (remove_old_replicas_fields old_c config c3) as Hrem.
  destruct (remove_old_replicas old_c config c3) as [c4 k].
  simpl in Hrem. destruct Hrem as (Hr4 & Hv4 & Ht4 & Hp4 & Hb4 & Hk).
  destruct (contract_t.primary old_c) as [p|] eqn:Hold.
  - rewrite elect_primary_has_primary by (rewrite Hold; by eexists). simpl.
    destruct (replace_primary_fields old_c config ack_states k c4 p)
      as (c6 & -> & Hr6 & Hv6 & Ht6 & Hb6 & Hp6 & Hkill);
      [done|congruence|]. simpl.
    unfold register_branch. rewrite Hold.
    destruct (contract_t.primary c6) as [q|] eqn:Hq; [|by eexists].
    destruct (_ && _) eqn:Hc; [|by eexists].
    apply andb_true_iff in Hc as [_ Ha%acked_true].
    destruct (Hbr p eq_refl Ha) as [b Hb].
    { intros Hcase.
      assert (Some q = None) as Hnone; [|done].
      apply Hkill. destruct Hcase as [Hs|Hc].
      - left. by apply Hk.
      - right. by rewrite Hv4, Hv3. }
    unfold map_at. rewrite Hb. by eexists.
  - assert (contract_t.voters c4 = contract_t.voters old_c) as Hv4'.
    { rewrite Hv4, Hv3. unfold current_voters. rewrite Hold.
      by destruct (contract_t.temp_voters old_c). }
    specialize (Hvers eq_refl).
    destruct (select_loop config eligible' None) as [np|] eqn:Hsel.
    + assert (is_Some (ack_versions !! np)) as [v Hv].
      { apply select_loop_elem_of in Hsel.
        apply list_elem_of_fmap in Hsel as ([t s] & -> & He).
        apply (subseteq_drop _ _ _) in He.
        apply elem_of_candidates in He as (_ & _ & v & Hv & _).
        by exists v. }
      erewrite (proj2 (elect_primary_Ok _ _ _ _ _ _ _ _ c4 _ _ Hold Hv4')).
      * simpl. rewrite replace_primary_no_primary by done. simpl.
        unfold register_branch. rewrite Hold. by eexists.
      * split; [done|]. rewrite Hsel. by exists v.
    + erewrite (proj2 (elect_primary_Ok _ _ _ _ _ _ _ _ c4 _ _ Hold Hv4')).
      * simpl. rewrite replace_primary_no_primary by done. simpl.
        unfold register_branch. rewrite Hold. by eexists.
      * split; [done|]. rewrite Hsel. done.
Qed.

(** The only exception is that of [std::map::at]: no empty
    [boost::optional] is read. *)
Lemma calculate_contract_Throw (e : error_t) :
  calculate_contract' = Throw e → e = out_of_range.
Proof.
  unfold calculate_contract.
  destruct (voter_steps_fields old_c config ack_states)
    as (c3 & -> & Hr3 & Hv3 & Ht3 & Hp3 & Hb3). simpl.
  pose proof (remove_old_replicas_fields old_c config c3) as Hrem.
  destruct (remove_old_replicas old_c config c3) as [c4 k].
  simpl in Hrem. destruct Hrem as (Hr4 & Hv4 & Ht4 & Hp4 & Hb4 & Hk).
  destruct (contract_t.primary old_c) as [p|] eqn:Hold.
  - rewrite elect_primary_has_primary by (rewrite Hold; by eexists). simpl.
    destruct (replace_primary_fields old_c config ack_states k c4 p)
      as (c6 & -> & _); [done|congruence|]. simpl.
    unfold register_branch. rewrite Hold.
    destruct (contract_t.primary c6) as [q|]; [|done].
    destruct (_ && _); [|done].
    unfold map_at. destruct (ack_branches !! contract_t.server p); [done|].
    simpl. by intros [= <-].
  - unfold elect_primary. rewrite Hold. simpl.
    destruct (collect_replica_states _ _ _ _ _ _ _ _) as [l|e'] eqn:Hl; simpl.
    + destruct (select_new_primary config c4 (std_sort l)) as [np|]; simpl.
      * unfold map_at. destruct (ack_versions !! np) as [v|]; simpl.
        -- rewrite replace_primary_no_primary by done. simpl.
           unfold register_branch. by rewrite Hold.
        -- by intros [= <-].
      * rewrite replace_primary_no_primary by done. simpl.
        unfold register_branch. by rewrite Hold.
    + intros [= <-]. by apply collect_replica_states_Throw in Hl.
Qed.
End calculator.

(** ** Properties of the returned contract *)

Section returned_contract.
Context (branch_history : branch_history_t).
Context (version_project_to_branch :
  branch_history_t → version_t → branch_id_t → region_t → state_timestamp_t).
Context (region : region_t).
Context (old_c : contract_t).
Context (config : table_config_t.shard_t).
Context (ack_states : gmap server_id_t contract_ack_t.state_t).
Context (ack_versions : gmap server_id_t version_t).
Context (ack_branches : gmap server_id_t branch_id_t).
Context (branch_maker : server_id_t → version_t → branch_id_t).

Local Abbreviation calculate_contract' :=
  (calculate_contract branch_history version_project_to_branch region old_c
     config ack_states ack_versions ack_branches branch_maker).
Local Abbreviation candidates' :=
  (candidates branch_history version_project_to_branch region old_c
              ack_states ack_versions).
Local Abbreviation eligible' :=
  (eligible branch_history version_project_to_branch region old_c
            ack_states ack_versions).

(** C1, as amended.  [calculate_contract] returns a contract, without
    raising, whenever the two lookups that are not guarded find their key:
    when the old contract has no primary, every voter whose ack state is
    [secondary_need_primary] has an entry in [ack_versions]; and a primary
    whose ack state is [primary_need_branch] has an entry in
    [ack_branches].  Nothing is asked of the acks of any other server. *)
Theorem C1_returns_when_lookups_succeed :
  (contract_t.primary old_c = None →
   ∀ s, s ∈ contract_t.voters old_c → needs_primary ack_states s →
        is_Some (ack_versions !! s)) →
  (∀ p, contract_t.primary old_c = Some p →
        ack_states !! contract_t.server p
        = Some contract_ack_t.primary_need_branch →
        is_Some (ack_branches !! contract_t.server p)) →
  ∃ o, calculate_contract' = Ok o.
Proof.
  intros Hvers Hbr. apply calculate_contract_returns; [done|].
  intros p Hp Hack _. by apply Hbr.
Qed.

(** With a primary in the old contract, the returned contract keeps the
    branch of the old contract and [branch_maker] is not called; a branch
    that the primary proposes is written to [old_c]. *)
Lemma branch_with_old_primary (o : outcome) (p : contract_t.primary_t) :
  contract_t.primary old_c = Some p →
  calculate_contract' = Ok o →
  contract_t.branch (returned o) = contract_t.branch old_c
  ∧ branch_maker_calls o = []
  ∧ (is_Some (contract_t.primary (returned o)) →
     ack_states !! contract_t.server p
     = Some contract_ack_t.primary_need_branch →
     ∃ b, ack_branches !! contract_t.server p = Some b
          ∧ contract_t.branch (old_c_after o) = b).
Proof.
  intros Hp Hcalc.
  destruct (calculate_contract_fields _ _ _ _ _ _ _ _ _ _ Hcalc)
    as (_ & _ & _ & Hprim).
  rewrite Hp in Hprim. destruct Hprim as (Hb & Hcalls & _ & _ & Hreg).
  split_and!; try done. intros Hsome Hack.
  rewrite decide_True in Hreg by done.
  destruct Hreg as (b & Hb' & ->). by exists b.
Qed.

(** C3, as amended.  When the old contract has no [temp_voters] and its
    voters differ from [config.replicas], the returned contract has
    [temp_voters = config.replicas] if and only if the servers of
    [config.replicas] that have acked the old contract and either report
    [secondary_streaming] or are its primary are strictly more than
    [|config.replicas| / 2]; otherwise [temp_voters] stays absent. *)
Theorem C3_voter_change_initiated_iff (o : outcome) :
  contract_t.temp_voters old_c = None →
  contract_t.voters old_c ≠ table_config_t.replicas config →
  calculate_contract' = Ok o →
  let quorum :=
    size (table_config_t.replicas config) / 2
    < size (filter (acked_streaming_or_primary old_c ack_states)
                   (table_config_t.replicas config)) in
  (contract_t.temp_voters (returned o)
     = Some (table_config_t.replicas config) ↔ quorum)
  ∧ (¬ quorum → contract_t.temp_voters (returned o) = None).
Proof.
  intros Htemp Hne Hcalc quorum.
  destruct (calculate_contract_fields _ _ _ _ _ _ _ _ _ _ Hcalc)
    as (_ & _ & Ht & _).
  assert (commits_voter_change old_c ack_states = false) as Hc.
  { unfold commits_voter_change. by rewrite Htemp. }
  rewrite Hc in Ht.
  unfold initiates_voter_change in Ht.
  rewrite Htemp, num_streaming_size in Ht. simpl in Ht.
  rewrite bool_decide_eq_false_2 in Ht by done. simpl in Ht.
  destruct (_ <? _) eqn:Hlt.
  - apply Nat.ltb_lt in Hlt. split; [done|]. intros Hn. by destruct Hn.
  - apply Nat.ltb_ge in Hlt. rewrite Ht. split; [|done].
    split; [done|]. unfold quorum. lia.
Qed.

(** C4.  When the old contract has no primary, the returned contract has
    one only if strictly more than half of the voters, that is at least
    [|voters| / 2 + 1] of them, have acked [secondary_need_primary] for the
    old contract with a version; with fewer, the returned contract has no
    primary. *)
Theorem C4_election_needs_majority (o : outcome) :
  contract_t.primary old_c = None →
  calculate_contract' = Ok o →
  let responses :=
    size (filter (needs_primary_with_version ack_states ack_versions)
                 (contract_t.voters old_c)) in
  (is_Some (contract_t.primary (returned o)) →
   size (contract_t.voters old_c) / 2 + 1 ≤ responses
   ∧ size (contract_t.voters old_c) < 2 * responses)
  ∧ (responses ≤ size (contract_t.voters old_c) / 2 →
     contract_t.primary (returned o) = None).
Proof.
  intros Hold Hcalc responses.
  destruct (calculate_contract_fields _ _ _ _ _ _ _ _ _ _ Hcalc)
    as (_ & _ & _ & Hprim).
  rewrite Hold in Hprim. destruct Hprim as (_ & _ & Hsel).
  assert (is_Some (contract_t.primary (returned o)) →
          size (contract_t.voters old_c) / 2 < responses) as Hmaj.
  { intros Hsome.
    destruct (select_loop config eligible' None) as [np|] eqn:Hloop.
    - apply select_loop_elem_of in Hloop.
      apply list_elem_of_fmap in Hloop as (e & _ & He).
      apply list_elem_of_lookup in He as [i Hi].
      apply lookup_lt_Some in Hi. unfold eligible in Hi.
      rewrite length_drop, length_candidates in Hi.
      unfold responses. lia.
    - destruct Hsel as (Hnone & _). rewrite Hnone in Hsome.
      by destruct Hsome. }
  split.
  - intros Hsome. specialize (Hmaj Hsome).
    pose proof (Nat.div_mod_eq (size (contract_t.voters old_c)) 2).
    pose proof (Nat.mod_upper_bound (size (contract_t.voters old_c)) 2).
    lia.
  - intros Hfew.
    destruct (contract_t.primary (returned o)) as [q|] eqn:Hq; [|done].
    assert (size (contract_t.voters old_c) / 2 < responses); [|lia].
    apply Hmaj. by eexists.
Qed.

(** C6.  A call takes at most one of the two voter steps: the guards of
    initiating (lines 40 and 55) and of committing (lines 63 and 71-73)
    never hold together.  Initiating is what sets [temp_voters] from absent
    to [config.replicas], and it leaves [voters] alone; committing is what
    clears [temp_voters], and it copies them into [voters]. *)
Theorem C6_initiate_commit_exclusive (o : outcome) :
  calculate_contract' = Ok o →
  initiates_voter_change old_c config ack_states
  && commits_voter_change old_c ack_states = false
  ∧ (initiates_voter_change old_c config ack_states = true
     ↔ contract_t.temp_voters old_c = None
       ∧ contract_t.temp_voters (returned o)
         = Some (table_config_t.replicas config))
  ∧ (commits_voter_change old_c ack_states = true
     ↔ ∃ tv, contract_t.temp_voters old_c = Some tv
             ∧ contract_t.temp_voters (returned o) = None)
  ∧ (initiates_voter_change old_c config ack_states = true →
     contract_t.voters (returned o) = contract_t.voters old_c)
  ∧ (commits_voter_change old_c ack_states = true →
     contract_t.temp_voters old_c = Some (contract_t.voters (returned o))).
Proof.
  intros Hcalc.
  destruct (calculate_contract_fields _ _ _ _ _ _ _ _ _ _ Hcalc)
    as (_ & Hv & Ht & _).
  pose proof (initiates_commits_exclusive old_c config ack_states) as Hex.
  pose proof (commits_voter_change_true old_c ack_states) as Hcom.
  unfold current_voters in Hv.
  destruct (commits_voter_change old_c ack_states) eqn:Hc.
  - rewrite andb_true_r in Hex. rewrite Hex.
    destruct (proj1 Hcom eq_refl) as (tv & p & Htv & Hp & Hack).
    rewrite Htv, Hp, decide_True in Hv by done.
    split_and!; try done.
    + split; [done|]. intros [? _]. congruence.
    + split; [|done]. intros _. by exists tv.
    + intros _. congruence.
  - assert (contract_t.voters (returned o) = contract_t.voters old_c)
      as Hv'.
    { rewrite Hv.
      destruct (contract_t.temp_voters old_c) as [tv|] eqn:Htv; [|done].
      destruct (contract_t.primary old_c) as [p|] eqn:Hp; [|done].
      rewrite decide_False; [done|]. intros Hack.
      assert (false = true) as Hf; [|done].
      apply Hcom. by exists tv, p. }
    destruct (initiates_voter_change old_c config ack_states) eqn:Hi.
    + split_and!; try done.
      * split; [|done]. intros _. split; [|done].
        unfold initiates_voter_change in Hi.
        destruct (contract_t.temp_voters old_c); [done|done].
      * split; [done|]. intros (tv & _ & Hnone). congruence.
    + split_and!; try done.
      * split; [done|]. intros [Hnone Hsome]. congruence.
      * split; [done|]. intros (tv & Htv & Hnone). congruence.
Qed.
(** C7.  The returned replicas are among the old replicas and
    [config.replicas]; and a server of the old replicas that the returned
    contract no longer has is not in [config.replicas], not a voter, not a
    temporary voter, and not the primary.  That holds of the voters and
    temporary voters of the old contract and of the returned one. *)
Theorem C7_replicas_grow_or_stale (o : outcome) :
  calculate_contract' = Ok o →
  contract_t.replicas (returned o)
    ⊆ contract_t.replicas old_c ∪ table_config_t.replicas config
  ∧ ∀ x, x ∈ contract_t.replicas old_c →
         x ∉ contract_t.replicas (returned o) →
         (x ∉ table_config_t.replicas config)
         ∧ (x ∉ contract_t.voters old_c)
         ∧ (∀ tv, contract_t.temp_voters old_c = Some tv → x ∉ tv)
         ∧ old_primary_server old_c ≠ Some x
         ∧ (x ∉ contract_t.voters (returned o))
         ∧ (∀ tv, contract_t.temp_voters (returned o) = Some tv → x ∉ tv).
Proof.
  intros Hcalc.
  destruct (calculate_contract_fields _ _ _ _ _ _ _ _ _ _ Hcalc)
    as (Hr & Hv & Ht & _).
  split.
  { intros x Hx. by apply Hr in Hx as [? _]. }
  intros x Hold Hgone.
  assert (is_stale old_c config x = true ∧ old_primary_is old_c x = false)
    as [Hstale Hnp].
  { destruct (is_stale old_c config x) eqn:Hs;
      destruct (old_primary_is old_c x) eqn:Hp; try done;
      exfalso; apply Hgone, Hr; (split; [apply elem_of_union; by left|]);
      intros (_ & ? & ?); congruence. }
  apply is_stale_true in Hstale as (Hcfg & Hvot & Htv).
  split_and!; try done.
  - intros Hp%old_primary_is_server. congruence.
  - rewrite Hv. unfold current_voters.
    destruct (contract_t.temp_voters old_c) as [tv|]; [|done].
    destruct (contract_t.primary old_c); [|done].
    case_decide; [by apply Htv|done].
  - intros tv. rewrite Ht.
    destruct (commits_voter_change old_c ack_states); [done|].
    destruct (initiates_voter_change old_c config ack_states).
    + by intros [= <-].
    + apply Htv.
Qed.

(** C8.  When the old contract has no primary and more than half of the
    voters have acked [secondary_need_primary], the candidates are those
    voters, each with the timestamp its version projects to, in the order
    of (timestamp, server id); the eligible ones are those from position
    [|voters| / 2] on.  The call returns exactly when each of those voters
    sent a version; it then elects an eligible candidate,
    [config.primary_replica] if it is eligible and the last candidate, the
    most up to date one, otherwise, and it asks [branch_maker] for a branch
    for the elected server at its acked version. *)
Theorem C8_election_choice :
  contract_t.primary old_c = None →
  size (contract_t.voters old_c) / 2
    < size (filter (needs_primary ack_states) (contract_t.voters old_c)) →
  Sorted pair_le candidates'
  ∧ (∀ t s, (t, s) ∈ candidates'
            ↔ s ∈ contract_t.voters old_c
              ∧ needs_primary ack_states s
              ∧ ∃ v, ack_versions !! s = Some v
                     ∧ t = version_project_to_branch branch_history v
                             (contract_t.branch old_c) region)
  ∧ eligible' = drop (size (contract_t.voters old_c) / 2) candidates'
  ∧ ((∃ o, calculate_contract' = Ok o)
     ↔ ∀ s, s ∈ contract_t.voters old_c → needs_primary ack_states s →
            is_Some (ack_versions !! s))
  ∧ ∀ o, calculate_contract' = Ok o →
      ∃ t chosen v,
        contract_t.primary (returned o)
        = Some (contract_t.mk_primary chosen false nil_uuid None)
        ∧ (t, chosen) ∈ eligible'
        ∧ (table_config_t.primary_replica config ∈ eligible'.*2 →
           chosen = table_config_t.primary_replica config)
        ∧ (table_config_t.primary_replica config ∉ eligible'.*2 →
           ∀ e, e ∈ candidates' → pair_le e (t, chosen))
        ∧ ack_versions !! chosen = Some v
        ∧ contract_t.branch (returned o) = branch_maker chosen v
        ∧ branch_maker_calls o = [(chosen, v)].
Proof.
  intros Hold Hquorum.
  split; [apply Sorted_candidates|].
  split; [apply elem_of_candidates|].
  split; [done|].
  split.
  { split.
    - intros [o Hcalc].
      destruct (calculate_contract_fields _ _ _ _ _ _ _ _ _ _ Hcalc)
        as (_ & _ & _ & Hprim).
      rewrite Hold in Hprim. by destruct Hprim as (Hvers & _).
    - intros Hvers. apply calculate_contract_returns.
      + intros _. exact Hvers.
      + intros p Hp. congruence. }
  intros o Hcalc.
  destruct (calculate_contract_fields _ _ _ _ _ _ _ _ _ _ Hcalc)
    as (_ & _ & _ & Hprim).
  rewrite Hold in Hprim. destruct Hprim as (Hvers & _ & Hsel).
  assert (filter (needs_primary ack_states) (contract_t.voters old_c)
          = filter (needs_primary_with_version ack_states ack_versions)
                   (contract_t.voters old_c)) as Hsame.
  { apply set_eq. intros x. rewrite !elem_of_filter.
    unfold needs_primary_with_version. split.
    - intros [Hn Hx]. split_and!; try done. by apply Hvers.
    - intros [[Hn _] Hx]. done. }
  rewrite Hsame in Hquorum.
  rewrite <- (length_candidates branch_history version_project_to_branch
                region old_c) in Hquorum.
  destruct (last eligible') as [[t last_server]|] eqn:Hlast.
  2:{ apply last_None in Hlast. apply (f_equal length) in Hlast.
      unfold eligible in Hlast. rewrite length_drop in Hlast.
      simpl in Hlast. lia. }
  assert (∃ front, candidates' = front ++ [(t, last_server)])
    as [front Hfront].
  { apply last_Some in Hlast as [l' Hl'].
    exists (take (size (contract_t.voters old_c) / 2) candidates' ++ l').
    rewrite <- app_assoc, <- Hl'. unfold eligible.
    by rewrite take_drop. }
  destruct (decide (table_config_t.primary_replica config ∈ eligible'.*2))
    as [Hin|Hnin].
  - rewrite select_loop_primary_replica in Hsel by done.
    destruct Hsel as (v & Hv & Hp & Hb & Hcalls).
    pose proof Hin as Hin'.
    apply list_elem_of_fmap in Hin as ([t' s'] & Heq & Hin).
    simpl in Heq. subst s'.
    exists t', (table_config_t.primary_replica config), v.
    split_and!; try done.
  - rewrite select_loop_last, Hlast in Hsel by done. simpl in Hsel.
    destruct Hsel as (v & Hv & Hp & Hb & Hcalls).
    exists t, last_server, v.
    split_and!; try done.
    + by apply last_Some_elem_of.
    + intros _ e He.
      pose proof (Sorted_candidates branch_history
                    version_project_to_branch region old_c ack_states
                    ack_versions) as Hsorted.
      apply (Sorted_StronglySorted pair_le) in Hsorted.
      rewrite Hfront in Hsorted, He.
      apply elem_of_app in He as [He|He%list_elem_of_singleton].
      * eapply (StronglySorted_app_1_elem_of pair_le); [done..|].
        by apply list_elem_of_singleton.
      * subst e. unfold pair_le. simpl. right. split; [done|lia].
Qed.

(** C9.  When the old contract has a primary and the voters in force
    ([old_c.temp_voters] when this call commits the voter change,
    [old_c.voters] otherwise; they are the voters of the returned contract)
    that acked [secondary_need_primary] for the old contract are strictly
    more than half of them, the call returns a contract without a
    primary. *)
Theorem C9_failover_removes_primary (p : contract_t.primary_t) :
  contract_t.primary old_c = Some p →
  size (current_voters old_c ack_states) / 2
    < size (filter (needs_primary ack_states)
                   (current_voters old_c ack_states)) →
  ∃ o, calculate_contract' = Ok o
       ∧ contract_t.voters (returned o) = current_voters old_c ack_states
       ∧ contract_t.primary (returned o) = None.
Proof.
  intros Hold Hmaj.
  destruct calculate_contract_returns
    with (branch_history := branch_history)
         (version_project_to_branch := version_project_to_branch)
         (region := region) (old_c := old_c) (config := config)
         (ack_states := ack_states) (ack_versions := ack_versions)
         (ack_branches := ack_branches) (branch_maker := branch_maker)
    as [o Hcalc].
  { intros Hnone. congruence. }
  { intros q _ _ Hn. exfalso. apply Hn. by right. }
  exists o. split; [done|].
  destruct (calculate_contract_fields _ _ _ _ _ _ _ _ _ _ Hcalc)
    as (_ & Hv & _ & Hprim).
  rewrite Hold in Hprim. destruct Hprim as (_ & _ & _ & Hkill & _).
  split; [done|]. apply Hkill. by right.
Qed.

(** C10.  The voters of the returned contract are the old voters, or the
    old [temp_voters] as a whole; the latter exactly when [temp_voters] is
    present and the primary of the old contract acked [primary_ready]. *)
Theorem C10_voters_old_or_temp (o : outcome) :
  calculate_contract' = Ok o →
  let commit :=
    ∃ tv p, contract_t.temp_voters old_c = Some tv
            ∧ contract_t.primary old_c = Some p
            ∧ ack_states !! contract_t.server p
              = Some contract_ack_t.primary_ready in
  (contract_t.voters (returned o) = contract_t.voters old_c
   ∨ contract_t.temp_voters old_c = Some (contract_t.voters (returned o))
     ∧ commit)
  ∧ (commit →
     contract_t.temp_voters old_c = Some (contract_t.voters (returned o)))
  ∧ (¬ commit →
     contract_t.voters (returned o) = contract_t.voters old_c).
Proof.
  intros Hcalc commit.
  destruct (calculate_contract_fields _ _ _ _ _ _ _ _ _ _ Hcalc)
    as (_ & Hv & _).
  unfold current_voters in Hv.
  destruct (contract_t.temp_voters old_c) as [tv|] eqn:Htv.
  2:{ split_and!; [by left| |done]. by intros (? & ? & ? & _). }
  destruct (contract_t.primary old_c) as [p|] eqn:Hp.
  2:{ split_and!; [by left| |done]. by intros (? & ? & _ & ? & _). }
  destruct (decide (ack_states !! contract_t.server p
                    = Some contract_ack_t.primary_ready)) as [Hack|Hnack].
  - assert commit as Hcommit by by exists tv, p.
    split_and!; [right; split; [congruence|done]|congruence|done].
  - assert (¬ commit) as Hncommit.
    { intros (? & ? & _ & [= <-] & ?). done. }
    split_and!; [by left|done|done].
Qed.
End returned_contract.

(** ** The split points of [pump_contracts] *)

Section split_points.
Lemma elem_of_map_iter {V} (m : gmap N V) (k : N) (v : V) :
  (k, v) ∈ map_iter m ↔ m !! k = Some v.
Proof.
  unfold map_iter. rewrite merge_sort_Permutation.
  apply elem_of_map_to_list.
Qed.

Lemma insert_origin_list (l : list (region_t * version_t))
    (sp : gset store_key_t) (k : store_key_t) :
  k ∈ foldl (λ split_points pair2,
               {[key_range_t.left (region_t.inner pair2.1)]} ∪ split_points)
            sp l
  ↔ k ∈ sp ∨ ∃ pair2, pair2 ∈ l
                      ∧ k = key_range_t.left (region_t.inner pair2.1).
Proof.
  induction l as [|x l IH] in sp |- *; simpl.
  { split; [by left|]. intros [?|(? & []%elem_of_nil & _)]. done. }
  rewrite IH, elem_of_union, elem_of_singleton. split.
  - intros [[->|?]|(y & ? & ?)].
    + right. exists x. split; [by left|done].
    + by left.
    + right. exists y. split; [by right|done].
  - intros [?|(y & [->|?]%elem_of_cons & ?)].
    + left. by right.
    + left. by left.
    + right. by exists y.
Qed.

Lemma insert_origins_list
    (l : list (branch_id_t * branch_birth_certificate_t))
    (sp : gset store_key_t) (k : store_key_t) :
  k ∈ foldl (λ split_points pair,
               foldl (λ split_points pair2,
                        {[key_range_t.left (region_t.inner pair2.1)]}
                        ∪ split_points)
                     split_points (branch_birth_certificate_t.origin pair.2))
            sp l
  ↔ k ∈ sp ∨ ∃ pair pair2,
               pair ∈ l
               ∧ pair2 ∈ branch_birth_certificate_t.origin pair.2
               ∧ k = key_range_t.left (region_t.inner pair2.1).
Proof.
  induction l as [|x l IH] in sp |- *; simpl.
  { split; [by left|]. intros [?|(? & ? & []%elem_of_nil & _)]. done. }
  rewrite IH, insert_origin_list. split.
  - intros [[?|(y & ? & ?)]|(z & y & ? & ? & ?)].
    + by left.
    + right. exists x, y. split_and!; [by left|done|done].
    + right. exists z, y. split_and!; [by right|done|done].
  - intros [?|(z & y & [->|?]%elem_of_cons & ? & ?)].
    + left. by left.
    + left. right. by exists y.
    + right. by exists z, y.
Qed.

Lemma visit_old_contracts_id (sp : gset store_key_t) (old_state : state_t) :
  visit_old_contracts sp old_state = sp.
Proof.
  unfold visit_old_contracts.
  induction (map_iter (state_t.contracts old_state)) as [|x l IH]; done.
Qed.

(** X14.  The split points that [pump_contracts] computes are the left keys
    of the origin regions of the branches, whatever the old state is. *)
Lemma pump_contracts_split_points (branch_history : branch_history_t)
    (old_state : state_t)
    (new_contracts_out : gmap contract_id_t (region_t * contract_t))
    (delete_contracts_out : gset contract_id_t) (k : store_key_t) :
  k ∈ split_points (pump_contracts branch_history old_state
                      new_contracts_out delete_contracts_out)
  ↔ ∃ branch certificate region version,
      branch_history !! branch = Some certificate
      ∧ (region, version) ∈ branch_birth_certificate_t.origin certificate
      ∧ k = key_range_t.left (region_t.inner region).
Proof.
  unfold pump_contracts. simpl. rewrite visit_old_contracts_id.
  unfold insert_origins. rewrite insert_origins_list. split.
  - intros [[]%elem_of_empty|([b cert] & [r v] & Hb%elem_of_map_iter & ? & ?)].
    by exists b, cert, r, v.
  - intros (b & cert & r & v & Hb%elem_of_map_iter & ? & ?).
    right. by exists (b, cert), (r, v).
Qed.
End split_points.

(** ** The scenarios *)

Section scenario_facts.
Import scenarios.

Lemma B_returns :
  calculate_contract ∅ project whole_table B_old_c B_config B_ack_states
    B_ack_versions ∅ branch_maker = Ok B_outcome.
Proof. vm_compute. reflexivity. Qed.

Lemma B_versions_present (s : server_id_t) :
  s ∈ contract_t.voters B_old_c → needs_primary B_ack_states s →
  is_Some (B_ack_versions !! s).
Proof.
  intros Hs _. unfold B_old_c in Hs. simpl in Hs.
  set_unfold in Hs. destruct_or!; subst s; by eexists.
Qed.

Lemma need_branch_returns :
  calculate_contract ∅ project whole_table need_branch_old_c
    need_branch_config need_branch_ack_states ∅ need_branch_ack_branches
    branch_maker = Ok need_branch_outcome.
Proof. vm_compute. reflexivity. Qed.

Lemma shrink_returns :
  calculate_contract ∅ project whole_table shrink_old_c shrink_config
    shrink_ack_states ∅ ∅ branch_maker = Ok shrink_outcome.
Proof. vm_compute. reflexivity. Qed.

Lemma grow_returns :
  calculate_contract ∅ project whole_table grow_old_c grow_config
    grow_ack_states ∅ ∅ branch_maker = Ok grow_outcome.
Proof. vm_compute. reflexivity. Qed.

Lemma C_returns :
  calculate_contract ∅ project whole_table C_old_c C_config C_ack_states
    ∅ ∅ branch_maker = Ok C_outcome.
Proof. vm_compute. reflexivity. Qed.

Lemma D_returns :
  calculate_contract ∅ project whole_table D_old_c D_config D_ack_states
    ∅ ∅ branch_maker = Ok D_outcome.
Proof. vm_compute. reflexivity. Qed.

Lemma stale_returns :
  calculate_contract ∅ project whole_table stale_old_c stale_config
    ∅ ∅ ∅ branch_maker = Ok stale_outcome.
Proof. vm_compute. reflexivity. Qed.
End scenario_facts.

(** ** The properties on the scenarios *)

(** Decides a closed decidable proposition by evaluation. *)
Ltac by_evaluation :=
  match goal with
  | |- ?P => apply (bool_decide_unpack P); vm_compute; exact I
  end.

Section scenario_properties.
Import scenarios.

(** C1, as the specification states it, fails: a voter acked
    [secondary_need_primary] and has no entry in [ack_versions]; the
    entry is not ignored, [ack_versions.at] throws. *)
Lemma C1_missing_version_raises :
  contract_t.primary no_version_old_c = None
  ∧ X ∈ contract_t.voters no_version_old_c
  ∧ no_version_ack_states !! X = Some contract_ack_t.secondary_need_primary
  ∧ (∅ : gmap server_id_t version_t) !! X = None
  ∧ calculate_contract ∅ project whole_table no_version_old_c
      no_version_config no_version_ack_states ∅ ∅ branch_maker
    = Throw out_of_range.
Proof.
  split_and!; first [reflexivity | by_evaluation].
Qed.

Lemma C1_returns_when_lookups_succeed_witness :
  ∃ o, calculate_contract ∅ project whole_table B_old_c B_config
         B_ack_states B_ack_versions ∅ branch_maker = Ok o.
Proof.
  apply C1_returns_when_lookups_succeed.
  - intros _. exact B_versions_present.
  - intros p Hp. vm_compute in Hp. discriminate Hp.
Defined.

(** C2 fails on the code: the primary [X] stays and has acked
    [primary_need_branch] with the proposed branch 9, and the returned
    contract still carries branch 7; the proposed branch went to
    [old_c]. *)
Theorem C2_proposed_branch_not_adopted :
  calculate_contract ∅ project whole_table need_branch_old_c
    need_branch_config need_branch_ack_states ∅ need_branch_ack_branches
    branch_maker = Ok need_branch_outcome
  ∧ contract_t.primary need_branch_old_c = Some (primary_on X)
  ∧ contract_t.primary (returned need_branch_outcome)
    = Some (primary_on X)
  ∧ need_branch_ack_states !! X = Some contract_ack_t.primary_need_branch
  ∧ need_branch_ack_branches !! X = Some 9%N
  ∧ contract_t.branch (returned need_branch_outcome) = 7%N
  ∧ contract_t.branch (returned need_branch_outcome) ≠ 9%N
  ∧ contract_t.branch (old_c_after need_branch_outcome) = 9%N
  ∧ branch_maker_calls need_branch_outcome = [].
Proof.
  split_and!;
    first [apply need_branch_returns | reflexivity | discriminate].
Qed.

(** C3, as the specification states it, fails: the old contract has no
    [temp_voters], its voters [{X, Y, Z}] differ from [config.replicas =
    {X}], and the one server of [config.replicas] is the primary, which is
    more than half of them; the primary has not acked, and [temp_voters]
    stays absent. *)
Lemma C3_unacked_primary_not_counted :
  contract_t.temp_voters shrink_old_c = None
  ∧ contract_t.voters shrink_old_c ≠ table_config_t.replicas shrink_config
  ∧ size (table_config_t.replicas shrink_config) / 2
    < size (filter (streaming_or_primary shrink_old_c shrink_ack_states)
                   (table_config_t.replicas shrink_config))
  ∧ calculate_contract ∅ project whole_table shrink_old_c shrink_config
      shrink_ack_states ∅ ∅ branch_maker = Ok shrink_outcome
  ∧ contract_t.temp_voters (returned shrink_outcome) = None.
Proof.
  split_and!.
  - reflexivity.
  - by_evaluation.
  - by_evaluation.
  - apply shrink_returns.
  - reflexivity.
Qed.

Lemma C3_voter_change_initiated_iff_witness :
  size (table_config_t.replicas grow_config) / 2
    < size (filter (acked_streaming_or_primary grow_old_c grow_ack_states)
                   (table_config_t.replicas grow_config))
  ∧ contract_t.temp_voters (returned grow_outcome)
    = Some (table_config_t.replicas grow_config).
Proof.
  assert (size (table_config_t.replicas grow_config) / 2
          < size (filter (acked_streaming_or_primary grow_old_c
                            grow_ack_states)
                         (table_config_t.replicas grow_config))) as Hq
    by by_evaluation.
  split; [exact Hq|].
  apply (C3_voter_change_initiated_iff ∅ project whole_table grow_old_c
           grow_config grow_ack_states ∅ ∅ branch_maker grow_outcome).
  - reflexivity.
  - by_evaluation.
  - apply grow_returns.
  - exact Hq.
Defined.

Lemma C4_election_needs_majority_witness :
  size (contract_t.voters B_old_c) / 2 + 1
  ≤ size (filter (needs_primary_with_version B_ack_states B_ack_versions)
                 (contract_t.voters B_old_c)).
Proof.
  apply (C4_election_needs_majority ∅ project whole_table B_old_c B_config
           B_ack_states B_ack_versions ∅ branch_maker B_outcome).
  - reflexivity.
  - apply B_returns.
  - by eexists.
Defined.

(** C5 fails on the code: two old contracts meet at key "m", and the one
    branch has its origin on the whole table; the split points are the left
    key of that origin alone, and "m" is not among them. *)
Theorem C5_old_contract_boundary_missing :
  state_t.contracts two_regions !! 2%N
    = Some (region_t.mk 0 0 (key_range_t.mk "m" None), B_old_c)
  ∧ ("m" ∉ split_points (pump_contracts one_branch two_regions ∅ ∅))
  ∧ split_points (pump_contracts one_branch two_regions ∅ ∅) = {[ "" ]}.
Proof.
  split_and!.
  - reflexivity.
  - by_evaluation.
  - by_evaluation.
Qed.

Lemma C6_initiate_commit_exclusive_witness :
  commits_voter_change C_old_c C_ack_states = true
  ∧ initiates_voter_change C_old_c C_config C_ack_states = false
  ∧ contract_t.temp_voters C_old_c
    = Some (contract_t.voters (returned C_outcome)).
Proof.
  destruct (C6_initiate_commit_exclusive ∅ project whole_table C_old_c
              C_config C_ack_states ∅ ∅ branch_maker C_outcome)
    as (Hex & _ & _ & _ & Hc).
  - apply C_returns.
  - assert (commits_voter_change C_old_c C_ack_states = true) as Hcom
      by (vm_compute; reflexivity).
    split_and!; [exact Hcom| |exact (Hc Hcom)].
    rewrite Hcom, andb_true_r in Hex. exact Hex.
Defined.

Lemma C7_replicas_grow_or_stale_witness :
  W ∈ contract_t.replicas stale_old_c
  ∧ (W ∉ contract_t.replicas (returned stale_outcome))
  ∧ (W ∉ table_config_t.replicas stale_config)
  ∧ (W ∉ contract_t.voters stale_old_c)
  ∧ old_primary_server stale_old_c ≠ Some W.
Proof.
  assert (W ∈ contract_t.replicas stale_old_c) as Hin by by_evaluation.
  assert (W ∉ contract_t.replicas (returned stale_outcome)) as Hout
    by by_evaluation.
  destruct (C7_replicas_grow_or_stale ∅ project whole_table stale_old_c
              stale_config ∅ ∅ ∅ branch_maker stale_outcome stale_returns)
    as [_ Hgone].
  destruct (Hgone W Hin Hout) as (? & ? & _ & ? & _).
  split_and!; assumption.
Defined.

(** Scenario B: the voters [X], [Y], [Z] are at the timestamps 1, 2, 3 and
    [config.primary_replica] is [Y]; [Y] is elected, not [Z]. *)
Lemma C8_election_choice_witness :
  ∃ o, calculate_contract ∅ project whole_table B_old_c B_config
         B_ack_states B_ack_versions ∅ branch_maker = Ok o
       ∧ contract_t.primary (returned o) = Some (primary_on Y)
       ∧ contract_t.primary (returned o) ≠ Some (primary_on Z).
Proof.
  destruct (C8_election_choice ∅ project whole_table B_old_c B_config
              B_ack_states B_ack_versions ∅ branch_maker)
    as (_ & _ & _ & Hreturns & Hchoice).
  - reflexivity.
  - by_evaluation.
  - destruct (proj2 Hreturns B_versions_present) as [o Hcalc].
    destruct (Hchoice o Hcalc) as (t & chosen & v & Hp & _ & Hpref & _).
    exists o. split; [exact Hcalc|].
    rewrite Hp, Hpref by by_evaluation.
    split; [reflexivity|discriminate].
Defined.

Lemma C9_failover_removes_primary_witness :
  ∃ o, calculate_contract ∅ project whole_table D_old_c D_config
         D_ack_states ∅ ∅ branch_maker = Ok o
       ∧ contract_t.voters (returned o)
         = current_voters D_old_c D_ack_states
       ∧ contract_t.primary (returned o) = None.
Proof.
  apply (C9_failover_removes_primary ∅ project whole_table D_old_c D_config
           D_ack_states ∅ ∅ branch_maker (primary_on X)).
  - reflexivity.
  - by_evaluation.
Defined.

Lemma C10_voters_old_or_temp_witness :
  contract_t.voters (returned C_outcome) ≠ contract_t.voters C_old_c
  ∧ contract_t.temp_voters C_old_c
    = Some (contract_t.voters (returned C_outcome)).
Proof.
  split; [by_evaluation|].
  apply (C10_voters_old_or_temp ∅ project whole_table C_old_c C_config
           C_ack_states ∅ ∅ branch_maker C_outcome C_returns).
  exists {[X; Y; Z]}, (primary_on X). split_and!; reflexivity.
Defined.
End scenario_properties.

(** ** The primary of the returned contract when [old_c] has one *)

Section primary_replacement.
Context (branch_history : branch_history_t).
Context (version_project_to_branch :
  branch_history_t → version_t → branch_id_t → region_t → state_timestamp_t).
Context (region : region_t).
Context (old_c : contract_t).
Context (config : table_config_t.shard_t).
Context (ack_states : gmap server_id_t contract_ack_t.state_t).
Context (ack_versions : gmap server_id_t version_t).
Context (ack_branches : gmap server_id_t branch_id_t).
Context (branch_maker : server_id_t → version_t → branch_id_t).

Local Abbreviation calculate_contract' :=
  (calculate_contract branch_history version_project_to_branch region old_c
     config ack_states ack_versions ack_branches branch_maker).

Lemma hand_over_wanted_true (p : contract_t.primary_t) :
  bool_decide (contract_t.server p ≠ table_config_t.primary_replica config)
  && acked ack_states (table_config_t.primary_replica config)
           contract_ack_t.secondary_streaming = true
  ↔ hand_over_wanted config ack_states p.
Proof.
  unfold hand_over_wanted.
  by rewrite andb_true_iff, bool_decide_eq_true, acked_true.
Qed.

Lemma hand_over_done_true (p : contract_t.primary_t) :
  bool_decide (contract_t.hand_over p
               = Some (table_config_t.primary_replica config))
  && acked ack_states (contract_t.server p) contract_ack_t.primary_ready
  = true
  ↔ hand_over_done config ack_states p.
Proof.
  unfold hand_over_done.
  by rewrite andb_true_iff, bool_decide_eq_true, acked_true.
Qed.

(** Lines 167-213, case by case, on a [new_c] that still has the old
    primary. *)
Lemma replace_primary_cases (k : bool) (c : contract_t)
    (p : contract_t.primary_t) :
  contract_t.primary old_c = Some p →
  contract_t.primary c = Some p →
  ∃ c', replace_primary old_c config ack_states k c = Ok c'
    ∧ (k = true
       ∨ size (contract_t.voters c) / 2
         < size (filter (needs_primary ack_states) (contract_t.voters c))
       → contract_t.primary c' = None)
    ∧ (k = false →
       ¬ size (contract_t.voters c) / 2
         < size (filter (needs_primary ack_states) (contract_t.voters c)) →
       (hand_over_wanted config ack_states p →
        hand_over_done config ack_states p →
        contract_t.primary c' = None)
       ∧ (hand_over_wanted config ack_states p →
          ¬ hand_over_done config ack_states p →
          contract_t.primary c'
          = Some (contract_t.set_hand_over
                    (Some (table_config_t.primary_replica config)) p))
       ∧ (¬ hand_over_wanted config ack_states p →
          contract_t.primary c'
          = Some (contract_t.set_hand_over None p))).
Proof.
  intros Hold Hc. unfold replace_primary.
  rewrite Hold, voters_cant_reach_primary_size, Hc. simpl.
  destruct (_ <? _) eqn:Hlt.
  { apply Nat.ltb_lt in Hlt. eexists. split; [done|]. simpl.
    split; [done|]. intros _ Hn. by destruct Hn. }
  apply Nat.ltb_ge in Hlt.
  destruct k.
  { eexists. split; [done|]. simpl. split; [done|]. by intros [=]. }
  pose proof (hand_over_wanted_true p) as Hw.
  pose proof (hand_over_done_true p) as Hd.
  destruct (bool_decide (contract_t.server p
                         ≠ table_config_t.primary_replica config)
            && acked ack_states (table_config_t.primary_replica config)
                     contract_ack_t.secondary_streaming).
  - destruct (bool_decide (contract_t.hand_over p
                           = Some (table_config_t.primary_replica config))
              && acked ack_states (contract_t.server p)
                       contract_ack_t.primary_ready).
    + eexists. split; [done|]. simpl. split.
      * done.
      * intros _ _. split_and!; try done.
        -- intros _ Hn. destruct Hn. by apply Hd.
        -- intros Hn. destruct Hn. by apply Hw.
    + eexists. split; [done|]. simpl. split.
      * intros [?|?]; [done|lia].
      * intros _ _. split_and!; try done.
        -- intros _ Hdone. apply Hd in Hdone. done.
        -- intros Hn. destruct Hn. by apply Hw.
  - eexists. split; [done|]. simpl. split.
    + intros [?|?]; [done|lia].
    + intros _ _. split_and!; try done.
      * intros Hwant. apply Hw in Hwant. done.
      * intros Hwant. apply Hw in Hwant. done.
Qed.

(** With a primary in [old_c], the call is the registration of a branch on
    a [new_c] whose primary is decided by lines 167-213. *)
Lemma calculate_contract_with_primary (p : contract_t.primary_t) :
  contract_t.primary old_c = Some p →
  ∃ c, calculate_contract'
       = (register_branch old_c ack_states ack_branches c
          ≫= λ old_c', mret (mk_outcome c old_c' []))
    ∧ (kills_primary old_c config ack_states →
       contract_t.primary c = None)
    ∧ (¬ kills_primary old_c config ack_states →
       (hand_over_wanted config ack_states p →
        hand_over_done config ack_states p →
        contract_t.primary c = None)
       ∧ (hand_over_wanted config ack_states p →
          ¬ hand_over_done config ack_states p →
          contract_t.primary c
          = Some (contract_t.set_hand_over
                    (Some (table_config_t.primary_replica config)) p))
       ∧ (¬ hand_over_wanted config ack_states p →
          contract_t.primary c
          = Some (contract_t.set_hand_over None p))).
Proof.
  intros Hold. unfold calculate_contract.
  destruct (voter_steps_fields old_c config ack_states)
    as (c3 & -> & Hr3 & Hv3 & Ht3 & Hp3 & Hb3). simpl.
  pose proof (remove_old_replicas_fields old_c config c3) as Hrem.
  destruct (remove_old_replicas old_c config c3) as [c4 k].
  simpl in Hrem. destruct Hrem as (Hr4 & Hv4 & Ht4 & Hp4 & Hb4 & Hk).
  rewrite elect_primary_has_primary by (rewrite Hold; by eexists). simpl.
  destruct (replace_primary_cases k c4 p) as (c6 & -> & Hkill & Hkeep);
    [done|congruence|]. simpl.
  rewrite Hv4, Hv3 in Hkill, Hkeep.
  exists c6. split; [done|]. split.
  - intros [Hs|Hm]; apply Hkill; [left; by apply Hk|by right].
  - intros Hn. apply Hkeep.
    + destruct k; [|done]. destruct Hn. left. by apply Hk.
    + intros Hm. apply Hn. by right.
Qed.
End primary_replacement.

(** ** Further properties of [calculate_contract] *)

Section further_properties.
Context (branch_history : branch_history_t).
Context (version_project_to_branch :
  branch_history_t → version_t → branch_id_t → region_t → state_timestamp_t).
Context (region : region_t).
Context (old_c : contract_t).
Context (config : table_config_t.shard_t).
Context (ack_states : gmap server_id_t contract_ack_t.state_t).
Context (ack_versions : gmap server_id_t version_t).
Context (ack_branches : gmap server_id_t branch_id_t).
Context (branch_maker : server_id_t → version_t → branch_id_t).

Local Abbreviation calculate_contract' :=
  (calculate_contract branch_history version_project_to_branch region old_c
     config ack_states ack_versions ack_branches branch_maker).
Local Abbreviation candidates' :=
  (candidates branch_history version_project_to_branch region old_c
              ack_states ack_versions).
Local Abbreviation eligible' :=
  (eligible branch_history version_project_to_branch region old_c
            ack_states ack_versions).

Lemma register_branch_outcome (c : contract_t) (o : outcome) :
  (register_branch old_c ack_states ack_branches c
   ≫= λ old_c', mret (mk_outcome c old_c' [])) = Ok o →
  returned o = c ∧ branch_maker_calls o = [].
Proof.
  destruct (register_branch old_c ack_states ack_branches c); simpl; [|done].
  by intros [= <-].
Qed.

Lemma register_branch_no_primary (c : contract_t) :
  contract_t.primary c = None →
  register_branch old_c ack_states ack_branches c = Ok old_c.
Proof.
  intros Hc. unfold register_branch. rewrite Hc.
  by destruct (contract_t.primary old_c).
Qed.

(** X1.  Every server of [config.replicas] is a replica of the returned
    contract, and so is the primary of the old contract if it was a replica,
    even when this call removes it as primary. *)
Theorem replicas_keep_config_and_primary (o : outcome) :
  calculate_contract' = Ok o →
  table_config_t.replicas config ⊆ contract_t.replicas (returned o)
  ∧ ∀ x, x ∈ contract_t.replicas old_c →
         old_primary_server old_c = Some x →
         x ∈ contract_t.replicas (returned o).
Proof.
  intros Hcalc.
  destruct (calculate_contract_fields _ _ _ _ _ _ _ _ _ _ Hcalc)
    as (Hr & _).
  split.
  - intros x Hx. apply Hr. split; [apply elem_of_union; by right|].
    intros (_ & Hs & _). apply is_stale_true in Hs as (Hn & _). done.
  - intros x Hx Hp. apply Hr. split; [apply elem_of_union; by left|].
    intros (_ & _ & Hnp). apply old_primary_is_server in Hp. congruence.
Qed.

(** X2.  [branch_maker] is called at most once, and exactly when the call
    elects a primary; the elected server and its acked version are the
    arguments and the result is the branch of the returned contract.
    Without that call the returned contract has the branch of the old
    one. *)
Theorem branch_maker_called_iff_elected (o : outcome) :
  calculate_contract' = Ok o →
  (branch_maker_calls o = []
   ∧ contract_t.branch (returned o) = contract_t.branch old_c
   ∧ (contract_t.primary old_c = None →
      contract_t.primary (returned o) = None))
  ∨ (∃ s v, contract_t.primary old_c = None
            ∧ contract_t.primary (returned o)
              = Some (contract_t.mk_primary s false nil_uuid None)
            ∧ ack_versions !! s = Some v
            ∧ branch_maker_calls o = [(s, v)]
            ∧ contract_t.branch (returned o) = branch_maker s v).
Proof.
  intros Hcalc.
  destruct (calculate_contract_fields _ _ _ _ _ _ _ _ _ _ Hcalc)
    as (_ & _ & _ & Hprim).
  destruct (contract_t.primary old_c) as [p|].
  - destruct Hprim as (Hb & Hcalls & _). left. done.
  - destruct Hprim as (_ & _ & Hsel).
    destruct (select_loop config eligible' None) as [s|].
    + destruct Hsel as (v & Hv & Hp & Hb & Hcalls).
      right. by exists s, v.
    + destruct Hsel as (Hp & Hb & Hcalls). left. done.
Qed.

(** X3.  A call never puts another server in the place of a primary: when
    the old contract has a primary, the returned contract has none or the
    same one, with [warm_shutdown] and [warm_shutdown_for] as they were and
    with [hand_over] either empty or [config.primary_replica]; the latter
    only for a [config.primary_replica] other than the primary that reports
    [secondary_streaming]. *)
Theorem old_primary_kept_or_removed (o : outcome)
    (p : contract_t.primary_t) :
  contract_t.primary old_c = Some p →
  calculate_contract' = Ok o →
  contract_t.primary (returned o) = None
  ∨ contract_t.primary (returned o)
    = Some (contract_t.set_hand_over None p)
  ∨ (contract_t.primary (returned o)
     = Some (contract_t.set_hand_over
               (Some (table_config_t.primary_replica config)) p)
     ∧ hand_over_wanted config ack_states p).
Proof.
  intros Hold Hcalc.
  destruct (calculate_contract_with_primary branch_history
              version_project_to_branch region old_c config ack_states
              ack_versions ack_branches branch_maker p Hold)
    as (c & Heq & Hkill & Hkeep).
  rewrite Heq in Hcalc.
  apply register_branch_outcome in Hcalc as [-> _].
  destruct (decide (kills_primary old_c config ack_states)) as [Hk|Hk].
  { left. by apply Hkill. }
  destruct (Hkeep Hk) as (Hdone & Hreq & Hclear).
  destruct (decide (hand_over_wanted config ack_states p)) as [Hw|Hw].
  - destruct (decide (hand_over_done config ack_states p)) as [Hd|Hd].
    + left. by apply Hdone.
    + right. right. split; [by apply Hreq|done].
  - right. left. by apply Hclear.
Qed.

(** X4.  A primary that stays, is not [config.primary_replica] while
    [config.primary_replica] reports [secondary_streaming], and has not yet
    acked a hand-over to it, is asked to hand over: the returned contract
    has the same primary with [hand_over = config.primary_replica]. *)
Theorem hand_over_requested (o : outcome) (p : contract_t.primary_t) :
  contract_t.primary old_c = Some p →
  ¬ kills_primary old_c config ack_states →
  hand_over_wanted config ack_states p →
  ¬ hand_over_done config ack_states p →
  calculate_contract' = Ok o →
  contract_t.primary (returned o)
  = Some (contract_t.set_hand_over
            (Some (table_config_t.primary_replica config)) p).
Proof.
  intros Hold Hk Hw Hd Hcalc.
  destruct (calculate_contract_with_primary branch_history
              version_project_to_branch region old_c config ack_states
              ack_versions ack_branches branch_maker p Hold)
    as (c & Heq & _ & Hkeep).
  rewrite Heq in Hcalc.
  apply register_branch_outcome in Hcalc as [-> _].
  destruct (Hkeep Hk) as (_ & Hreq & _). by apply Hreq.
Qed.

(** X5.  Once the primary has acked [primary_ready] to a contract that
    asked it to hand over to [config.primary_replica], and
    [config.primary_replica] still reports [secondary_streaming], the call
    returns a contract without a primary; it does not throw. *)
Theorem hand_over_completed (p : contract_t.primary_t) :
  contract_t.primary old_c = Some p →
  hand_over_wanted config ack_states p →
  hand_over_done config ack_states p →
  ∃ o, calculate_contract' = Ok o
       ∧ contract_t.primary (returned o) = None
       ∧ old_c_after o = old_c.
Proof.
  intros Hold Hw Hd.
  destruct (calculate_contract_with_primary branch_history
              version_project_to_branch region old_c config ack_states
              ack_versions ack_branches branch_maker p Hold)
    as (c & Heq & Hkill & Hkeep).
  assert (contract_t.primary c = None) as Hc.
  { destruct (decide (kills_primary old_c config ack_states)) as [Hk|Hk].
    - by apply Hkill.
    - destruct (Hkeep Hk) as (Hdone & _). by apply Hdone. }
  rewrite Heq, register_branch_no_primary by done. simpl.
  eexists. split; [done|]. simpl. done.
Qed.

(** X6.  A primary that stays while no hand-over is due, because it is
    [config.primary_replica] or because [config.primary_replica] does not
    report [secondary_streaming], has its [hand_over] cleared. *)
Theorem hand_over_cleared (o : outcome) (p : contract_t.primary_t) :
  contract_t.primary old_c = Some p →
  ¬ kills_primary old_c config ack_states →
  ¬ hand_over_wanted config ack_states p →
  calculate_contract' = Ok o →
  contract_t.primary (returned o)
  = Some (contract_t.set_hand_over None p).
Proof.
  intros Hold Hk Hw Hcalc.
  destruct (calculate_contract_with_primary branch_history
              version_project_to_branch region old_c config ack_states
              ack_versions ack_branches branch_maker p Hold)
    as (c & Heq & _ & Hkeep).
  rewrite Heq in Hcalc.
  apply register_branch_outcome in Hcalc as [-> _].
  destruct (Hkeep Hk) as (_ & _ & Hclear). by apply Hclear.
Qed.

(** X7.  A primary that is a replica of the old contract and is neither in
    [config.replicas] nor a voter nor a temporary voter is removed as
    primary, whatever the acks are, and is still a replica of the returned
    contract. *)
Theorem stale_primary_removed_but_still_replica :
  old_primary_is_stale old_c config →
  ∃ o p, calculate_contract' = Ok o
         ∧ contract_t.primary old_c = Some p
         ∧ contract_t.primary (returned o) = None
         ∧ contract_t.server p ∈ contract_t.replicas (returned o)
         ∧ contract_t.server p ∉ table_config_t.replicas config.
Proof.
  intros Hstale. pose proof Hstale as (x & Hx & Hs & Hp).
  apply old_primary_is_server in Hp as Hps.
  unfold old_primary_server in Hps.
  destruct (contract_t.primary old_c) as [p|] eqn:Hold; [|done].
  simpl in Hps. injection Hps as <-.
  destruct (calculate_contract_with_primary branch_history
              version_project_to_branch region old_c config ack_states
              ack_versions ack_branches branch_maker p Hold)
    as (c & Heq & Hkill & _).
  assert (contract_t.primary c = None) as Hc by (apply Hkill; by left).
  assert (calculate_contract' = Ok (mk_outcome c old_c [])) as Hcalc.
  { by rewrite Heq, register_branch_no_primary. }
  exists (mk_outcome c old_c []), p. split_and!; try done.
  - destruct (calculate_contract_fields _ _ _ _ _ _ _ _ _ _ Hcalc)
      as (Hr & _).
    apply Hr. split; [apply elem_of_union; by left|].
    intros (_ & _ & Hnp). congruence.
  - by apply is_stale_true in Hs as (Hn & _).
Qed.
Lemma contract_eq (c1 c2 : contract_t) :
  contract_t.replicas c1 = contract_t.replicas c2 →
  contract_t.voters c1 = contract_t.voters c2 →
  contract_t.temp_voters c1 = contract_t.temp_voters c2 →
  contract_t.primary c1 = contract_t.primary c2 →
  contract_t.branch c1 = contract_t.branch c2 →
  c1 = c2.
Proof. destruct c1, c2. simpl. by intros -> -> -> -> ->. Qed.

(** The voter steps and the removal of replicas change nothing when the
    replicas and the voters are [config.replicas] and no voter change is in
    flight. *)
Lemma settled_sets_unchanged (o : outcome) :
  contract_t.replicas old_c = table_config_t.replicas config →
  contract_t.voters old_c = table_config_t.replicas config →
  contract_t.temp_voters old_c = None →
  calculate_contract' = Ok o →
  contract_t.replicas (returned o) = contract_t.replicas old_c
  ∧ contract_t.voters (returned o) = contract_t.voters old_c
  ∧ contract_t.temp_voters (returned o) = None
  ∧ current_voters old_c ack_states = contract_t.voters old_c
  ∧ ¬ old_primary_is_stale old_c config.
Proof.
  intros Hr Hv Ht Hcalc.
  destruct (calculate_contract_fields _ _ _ _ _ _ _ _ _ _ Hcalc)
    as (Hr' & Hv' & Ht' & _).
  assert (current_voters old_c ack_states = contract_t.voters old_c) as Hcv.
  { unfold current_voters. by rewrite Ht. }
  assert (∀ x, x ∈ contract_t.replicas old_c →
               is_stale old_c config x = true → False) as Hns.
  { intros x Hx Hs. apply is_stale_true in Hs as (Hn & _).
    apply Hn. by rewrite <- Hr. }
  split_and!.
  - apply set_eq. intros x. rewrite Hr'. split.
    + intros [Hx _]. rewrite <- Hr in Hx.
      by apply elem_of_union in Hx as [?|?].
    + intros Hx. split; [apply elem_of_union; by left|].
      intros (_ & Hs & _). by apply (Hns x).
  - by rewrite Hv'.
  - rewrite Ht'. unfold commits_voter_change, initiates_voter_change.
    rewrite Ht. simpl. by rewrite bool_decide_eq_true_2.
  - done.
  - intros (x & Hx & Hs & _). by apply (Hns x).
Qed.

(** X8.  A settled contract is returned as it is: when the replicas and the
    voters are [config.replicas], no voter change is in flight, the primary
    is [config.primary_replica] with no hand-over pending, and at most half
    of the voters need a primary, the returned contract equals the old
    one. *)
Theorem settled_contract_unchanged (o : outcome)
    (p : contract_t.primary_t) :
  contract_t.replicas old_c = table_config_t.replicas config →
  contract_t.voters old_c = table_config_t.replicas config →
  contract_t.temp_voters old_c = None →
  contract_t.primary old_c = Some p →
  contract_t.server p = table_config_t.primary_replica config →
  contract_t.hand_over p = None →
  size (filter (needs_primary ack_states) (contract_t.voters old_c))
    ≤ size (contract_t.voters old_c) / 2 →
  calculate_contract' = Ok o →
  returned o = old_c.
Proof.
  intros Hr Hv Ht Hold Hserver Hho Hfew Hcalc.
  destruct (settled_sets_unchanged o Hr Hv Ht Hcalc)
    as (Hr' & Hv' & Ht' & Hcv & Hns).
  destruct (calculate_contract_fields _ _ _ _ _ _ _ _ _ _ Hcalc)
    as (_ & _ & _ & Hprim).
  rewrite Hold in Hprim. destruct Hprim as (Hb & _).
  assert (contract_t.primary (returned o)
          = Some (contract_t.set_hand_over None p)) as Hp.
  { destruct (calculate_contract_with_primary branch_history
                version_project_to_branch region old_c config ack_states
                ack_versions ack_branches branch_maker p Hold)
      as (c & Heq & _ & Hkeep).
    rewrite Heq in Hcalc.
    apply register_branch_outcome in Hcalc as [-> _].
    destruct Hkeep as (_ & _ & Hclear).
    - intros [Hs|Hm]; [done|]. rewrite Hcv in Hm. lia.
    - apply Hclear. by intros [Hne _]. }
  apply contract_eq; try congruence.
  rewrite Hp, Hold. f_equal. destruct p. simpl in *. by subst.
Qed.

(** X9.  Without a primary and without a majority of voters that need one
    and sent a version, a contract whose replicas and voters are
    [config.replicas] is returned as it is, and [branch_maker] is not
    called. *)
Theorem waiting_contract_unchanged (o : outcome) :
  contract_t.replicas old_c = table_config_t.replicas config →
  contract_t.voters old_c = table_config_t.replicas config →
  contract_t.temp_voters old_c = None →
  contract_t.primary old_c = None →
  size (filter (needs_primary_with_version ack_states ack_versions)
               (contract_t.voters old_c))
    ≤ size (contract_t.voters old_c) / 2 →
  calculate_contract' = Ok o →
  returned o = old_c ∧ branch_maker_calls o = [].
Proof.
  intros Hr Hv Ht Hold Hfew Hcalc.
  destruct (settled_sets_unchanged o Hr Hv Ht Hcalc)
    as (Hr' & Hv' & Ht' & _).
  destruct (calculate_contract_fields _ _ _ _ _ _ _ _ _ _ Hcalc)
    as (_ & _ & _ & Hprim).
  rewrite Hold in Hprim. destruct Hprim as (_ & _ & Hsel).
  destruct (select_loop config eligible' None) as [np|] eqn:Hloop.
  { apply select_loop_elem_of in Hloop.
    apply list_elem_of_fmap in Hloop as (e & _ & He).
    apply list_elem_of_lookup in He as [i Hi].
    apply lookup_lt_Some in Hi. unfold eligible in Hi.
    rewrite length_drop, length_candidates in Hi. lia. }
  destruct Hsel as (Hp & Hb & Hcalls).
  split; [|done]. apply contract_eq; congruence.
Qed.

(** X10.  A voter change that is in flight is neither dropped nor pointed
    at a new [config.replicas]: the returned contract has the same
    [temp_voters] and the old voters, or, when the change is committed, no
    [temp_voters] and the old [temp_voters] as voters. *)
Theorem voter_change_in_flight_kept (o : outcome)
    (tv : gset server_id_t) :
  contract_t.temp_voters old_c = Some tv →
  calculate_contract' = Ok o →
  (contract_t.temp_voters (returned o) = Some tv
   ∧ contract_t.voters (returned o) = contract_t.voters old_c)
  ∨ (contract_t.temp_voters (returned o) = None
     ∧ contract_t.voters (returned o) = tv).
Proof.
  intros Htv Hcalc.
  destruct (calculate_contract_fields _ _ _ _ _ _ _ _ _ _ Hcalc)
    as (_ & Hv & Ht & _).
  pose proof (commits_voter_change_true old_c ack_states) as Hcom.
  unfold current_voters in Hv. rewrite Htv in Hv.
  destruct (commits_voter_change old_c ack_states) eqn:Hc.
  - destruct (proj1 Hcom eq_refl) as (tv' & p & Htv' & Hp & Hack).
    rewrite Hp, decide_True in Hv by done. right. done.
  - left. split.
    + rewrite Ht. unfold initiates_voter_change. by rewrite Htv.
    + rewrite Hv. destruct (contract_t.primary old_c) as [p|] eqn:Hp; [|done].
      rewrite decide_False; [done|]. intros Hack.
      assert (false = true) as Hf; [|done].
      apply Hcom. by exists tv, p.
Qed.

Lemma length_filter_Forall {A} (P : A → Prop) `{!∀ x, Decision (P x)}
    (l : list A) :
  Forall P l → length (filter P l) = length l.
Proof.
  induction 1 as [|x l Hx _ IH]; [done|].
  rewrite filter_cons_True by done. simpl. by rewrite IH.
Qed.

Lemma length_filter_elem_of {A} (P : A → Prop) `{!∀ x, Decision (P x)}
    (l : list A) (x : A) :
  x ∈ l → P x → 0 < length (filter P l).
Proof.
  intros Hx HP.
  assert (x ∈ filter P l) as Hin by by apply list_elem_of_filter.
  destruct (filter P l); [by apply elem_of_nil in Hin|simpl; lia].
Qed.

(** X11.  A primary elected by the call is a voter that acked
    [secondary_need_primary], and it is at least as up to date as more than
    half of the voters, itself included: more than [|voters| / 2] of the
    candidates are not after it in the order of (timestamp, server id). *)
Theorem elected_primary_up_to_date (o : outcome)
    (q : contract_t.primary_t) :
  contract_t.primary old_c = None →
  calculate_contract' = Ok o →
  contract_t.primary (returned o) = Some q →
  contract_t.server q ∈ contract_t.voters old_c
  ∧ needs_primary ack_states (contract_t.server q)
  ∧ ∃ t, (t, contract_t.server q) ∈ candidates'
         ∧ size (contract_t.voters old_c) / 2
           < length (filter (λ e, pair_le e (t, contract_t.server q))
                            candidates').
Proof.
  intros Hold Hcalc Hq.
  destruct (calculate_contract_fields _ _ _ _ _ _ _ _ _ _ Hcalc)
    as (_ & _ & _ & Hprim).
  rewrite Hold in Hprim. destruct Hprim as (_ & _ & Hsel).
  destruct (select_loop config eligible' None) as [np|] eqn:Hloop.
  2:{ destruct Hsel as (Hnone & _). congruence. }
  destruct Hsel as (v & _ & Hp & _).
  rewrite Hq in Hp. injection Hp as ->. simpl.
  apply select_loop_elem_of in Hloop.
  apply list_elem_of_fmap in Hloop as ([t s] & Heq & He).
  simpl in Heq. subst s.
  pose proof He as Hcand. apply (subseteq_drop _ _ _) in Hcand.
  pose proof Hcand as Hmem.
  apply elem_of_candidates in Hmem as (Hvoter & Hneeds & _).
  split_and!; [done|done|]. exists t. split; [done|].
  set (k := size (contract_t.voters old_c) / 2) in *.
  unfold eligible in He. fold k in He.
  assert (k < length candidates') as Hlen.
  { apply list_elem_of_lookup in He as [i Hi].
    apply lookup_lt_Some in Hi. rewrite length_drop in Hi. lia. }
  pose proof (Sorted_candidates branch_history version_project_to_branch
                region old_c ack_states ack_versions) as Hsorted.
  apply (Sorted_StronglySorted pair_le) in Hsorted.
  rewrite <- (take_drop k candidates') in Hsorted |- *.
  rewrite filter_app, length_app.
  rewrite length_filter_Forall.
  - rewrite length_take.
    assert (0 < length (filter (λ e, pair_le e (t, np))
                               (drop k candidates'))); [|lia].
    apply (length_filter_elem_of _ _ (t, np)); [done|].
    unfold pair_le. simpl. right. split; [done|lia].
  - apply Forall_forall. intros e Hin.
    by eapply (StronglySorted_app_1_elem_of pair_le).
Qed.

Lemma collect_replica_states_Throw_inv (servers : list server_id_t)
    (acc : list (state_timestamp_t * server_id_t)) (e : error_t) :
  collect_replica_states branch_history version_project_to_branch region
    old_c ack_states ack_versions servers acc = Throw e →
  ∃ s, s ∈ servers ∧ needs_primary ack_states s ∧ ack_versions !! s = None.
Proof.
  induction servers as [|x servers IH] in acc |- *; simpl; [done|].
  destruct (acked ack_states x contract_ack_t.secondary_need_primary)
    eqn:Ha.
  - apply acked_true in Ha. unfold map_at.
    destruct (ack_versions !! x) as [v|] eqn:Hv; simpl.
    + intros (s & ? & ?)%IH. exists s. split; [by right|done].
    + intros _. exists x. split; [by left|done].
  - intros (s & ? & ?)%IH. exists s. split; [by right|done].
Qed.

(** X12.  When the old contract has no primary, the call throws, with
    [std::out_of_range], exactly when some voter acked
    [secondary_need_primary] and has no entry in [ack_versions]; whether
    the voters that answered are a majority plays no part. *)
Theorem throws_iff_voter_without_version (e : error_t) :
  contract_t.primary old_c = None →
  calculate_contract' = Throw e
  ↔ e = out_of_range
    ∧ ∃ s, s ∈ contract_t.voters old_c
           ∧ needs_primary ack_states s
           ∧ ack_versions !! s = None.
Proof.
  intros Hold. split.
  - intros Hthrow. split; [by eapply calculate_contract_Throw|].
    destruct (collect_replica_states branch_history
                version_project_to_branch region old_c ack_states
                ack_versions (iter (contract_t.voters old_c)) [])
      as [l|e'] eqn:Hl.
    + apply collect_replica_states_Ok in Hl as [Hvers _].
      destruct calculate_contract_returns
        with (branch_history := branch_history)
             (version_project_to_branch := version_project_to_branch)
             (region := region) (old_c := old_c) (config := config)
             (ack_states := ack_states) (ack_versions := ack_versions)
             (ack_branches := ack_branches) (branch_maker := branch_maker)
        as [o Hcalc].
      * intros _ s Hs Hn. apply Hvers; [by apply elem_of_iter|done].
      * intros p Hp. congruence.
      * congruence.
    + apply collect_replica_states_Throw_inv in Hl as (s & Hs & Hn & Hv).
      exists s. split; [by apply elem_of_iter|done].
  - intros (-> & s & Hs & Hn & Hv).
    destruct calculate_contract' as [o|e] eqn:Hcalc.
    + destruct (calculate_contract_fields _ _ _ _ _ _ _ _ _ _ Hcalc)
        as (_ & _ & _ & Hprim).
      rewrite Hold in Hprim. destruct Hprim as (Hvers & _).
      destruct (Hvers s Hs Hn) as [v Hv']. congruence.
    + f_equal. by eapply calculate_contract_Throw.
Qed.

(** X13.  When the old contract has a primary, the call throws, with
    [std::out_of_range], exactly when that primary stays, has acked
    [primary_need_branch] and has no entry in [ack_branches]. *)
Theorem throws_iff_branch_request_without_branch (e : error_t)
    (p : contract_t.primary_t) :
  contract_t.primary old_c = Some p →
  calculate_contract' = Throw e
  ↔ e = out_of_range
    ∧ ¬ kills_primary old_c config ack_states
    ∧ ack_states !! contract_t.server p
      = Some contract_ack_t.primary_need_branch
    ∧ ack_branches !! contract_t.server p = None.
Proof.
  intros Hold.
  destruct (calculate_contract_with_primary branch_history
              version_project_to_branch region old_c config ack_states
              ack_versions ack_branches branch_maker p Hold)
    as (c & Heq & Hkill & Hkeep).
  assert (contract_t.primary c = None → ∀ e', calculate_contract' ≠ Throw e')
    as Hok.
  { intros Hc e'. by rewrite Heq, register_branch_no_primary. }
  assert (∀ h, contract_t.primary c = Some (contract_t.set_hand_over h p) →
               calculate_contract' = Throw e
               ↔ e = out_of_range
                 ∧ ack_states !! contract_t.server p
                   = Some contract_ack_t.primary_need_branch
                 ∧ ack_branches !! contract_t.server p = None) as Hkept.
  { intros h Hc. rewrite Heq. unfold register_branch.
    rewrite Hold, Hc. simpl. rewrite bool_decide_eq_true_2 by done. simpl.
    destruct (acked ack_states (contract_t.server p)
                contract_ack_t.primary_need_branch) eqn:Ha.
    - apply acked_true in Ha. unfold map_at.
      destruct (ack_branches !! contract_t.server p) as [b|]; simpl.
      + split; [done|]. by intros (_ & _ & ?).
      + split; [by intros [= <-]|by intros (-> & _)].
    - simpl. split; [done|]. intros (_ & Hn%acked_true & _). congruence. }
  destruct (decide (kills_primary old_c config ack_states)) as [Hk|Hk].
  { split; [|by intros (_ & ? & _)].
    intros Hthrow. by destruct (Hok (Hkill Hk) e). }
  destruct (Hkeep Hk) as (Hdone & Hreq & Hclear).
  destruct (decide (hand_over_wanted config ack_states p)) as [Hw|Hw].
  - destruct (decide (hand_over_done config ack_states p)) as [Hd|Hd].
    + split.
      * intros Hthrow. by destruct (Hok (Hdone Hw Hd) e).
      * intros (_ & _ & Hn & _). destruct Hd as [_ Hd]. congruence.
    + rewrite (Hkept _ (Hreq Hw Hd)). split.
      * intros (? & ? & ?). done.
      * intros (? & _ & ? & ?). done.
  - rewrite (Hkept _ (Hclear Hw)). split.
    + intros (? & ? & ?). done.
    + intros (? & _ & ? & ?). done.
Qed.
End further_properties.

(** ** Acks that the calculation does not read *)

Section relevance.
Context (old_c : contract_t).
Context (config : table_config_t.shard_t).

Lemma foldl_ext_elem_of {A B} (f g : A → B → A) (l : list B) (a : A) :
  (∀ a x, x ∈ l → f a x = g a x) → foldl f a l = foldl g a l.
Proof.
  induction l as [|x l IH] in a |- *; simpl; [done|].
  intros Hfg. rewrite Hfg by by left. apply IH.
  intros a' y Hy. apply Hfg. by right.
Qed.

Lemma relevant_config (s : server_id_t) :
  s ∈ table_config_t.replicas config → s ∈ relevant_servers old_c config.
Proof. unfold relevant_servers. set_solver. Qed.

Lemma relevant_voters (s : server_id_t) :
  s ∈ contract_t.voters old_c → s ∈ relevant_servers old_c config.
Proof. unfold relevant_servers. set_solver. Qed.

Lemma relevant_temp_voters (s : server_id_t) (tv : gset server_id_t) :
  contract_t.temp_voters old_c = Some tv → s ∈ tv →
  s ∈ relevant_servers old_c config.
Proof. unfold relevant_servers. intros ->. simpl. set_solver. Qed.

Lemma relevant_primary_replica :
  table_config_t.primary_replica config ∈ relevant_servers old_c config.
Proof. unfold relevant_servers. set_solver. Qed.

Lemma relevant_primary (p : contract_t.primary_t) :
  contract_t.primary old_c = Some p →
  contract_t.server p ∈ relevant_servers old_c config.
Proof. unfold relevant_servers. intros ->. set_solver. Qed.

Lemma relevant_current_voters
    (ack_states : gmap server_id_t contract_ack_t.state_t)
    (s : server_id_t) :
  s ∈ current_voters old_c ack_states → s ∈ relevant_servers old_c config.
Proof.
  unfold current_voters.
  destruct (contract_t.temp_voters old_c) as [tv|] eqn:Htv;
    [|apply relevant_voters].
  destruct (contract_t.primary old_c); [|apply relevant_voters].
  case_decide; [by apply relevant_temp_voters|apply relevant_voters].
Qed.

End relevance.

Section agreement.
Context (old_c : contract_t).
Context (config : table_config_t.shard_t).
Context (ack_states ack_states' : gmap server_id_t contract_ack_t.state_t).
Context (Hagree : ∀ s, s ∈ relevant_servers old_c config →
                       ack_states !! s = ack_states' !! s).
#[local] Set Default Proof Using "Type Hagree".

Lemma acked_agree (s : server_id_t) (st : contract_ack_t.state_t) :
  s ∈ relevant_servers old_c config →
  acked ack_states s st = acked ack_states' s st.
Proof. intros Hs. unfold acked, map_count. by rewrite (Hagree s Hs). Qed.

Lemma num_streaming_agree :
  num_streaming old_c config ack_states
  = num_streaming old_c config ack_states'.
Proof.
  unfold num_streaming. apply foldl_ext_elem_of.
  intros n x Hx%elem_of_iter. by rewrite (Hagree x (relevant_config old_c config x Hx)).
Qed.

Lemma initiate_voter_change_agree (c : contract_t) :
  initiate_voter_change old_c config ack_states c
  = initiate_voter_change old_c config ack_states' c.
Proof.
  unfold initiate_voter_change, initiates_voter_change.
  by rewrite num_streaming_agree.
Qed.

Lemma commits_voter_change_agree :
  commits_voter_change old_c ack_states
  = commits_voter_change old_c ack_states'.
Proof.
  unfold commits_voter_change.
  destruct (contract_t.primary old_c) as [p|] eqn:Hp; [|done].
  by rewrite (acked_agree _ _ (relevant_primary old_c config p Hp)).
Qed.

Lemma commit_voter_change_agree (c : contract_t) :
  commit_voter_change old_c ack_states c
  = commit_voter_change old_c ack_states' c.
Proof. unfold commit_voter_change. by rewrite commits_voter_change_agree. Qed.

Lemma replace_primary_agree (k : bool) (c : contract_t) :
  contract_t.voters c = current_voters old_c ack_states →
  replace_primary old_c config ack_states k c
  = replace_primary old_c config ack_states' k c.
Proof.
  intros Hv. unfold replace_primary.
  destruct (contract_t.primary old_c) as [p|] eqn:Hp; [|done].
  assert (voters_cant_reach_primary ack_states c
          = voters_cant_reach_primary ack_states' c) as ->.
  { unfold voters_cant_reach_primary. apply foldl_ext_elem_of.
    intros n x Hx%elem_of_iter. rewrite Hv in Hx.
    by rewrite (acked_agree _ _ (relevant_current_voters old_c config ack_states x Hx)). }
  rewrite (acked_agree _ contract_ack_t.secondary_streaming
             (relevant_primary_replica old_c config)).
  by rewrite (acked_agree _ contract_ack_t.primary_ready
                (relevant_primary old_c config p Hp)).
Qed.
End agreement.

Section irrelevant_acks.
Context (branch_history : branch_history_t).
Context (version_project_to_branch :
  branch_history_t → version_t → branch_id_t → region_t → state_timestamp_t).
Context (region : region_t).
Context (old_c : contract_t).
Context (config : table_config_t.shard_t).
Context (ack_states ack_states' : gmap server_id_t contract_ack_t.state_t).
Context (ack_versions ack_versions' : gmap server_id_t version_t).
Context (ack_branches ack_branches' : gmap server_id_t branch_id_t).
Context (branch_maker : server_id_t → version_t → branch_id_t).

Lemma collect_replica_states_agree (servers : list server_id_t)
    (acc : list (state_timestamp_t * server_id_t)) :
  (∀ s, s ∈ servers →
        ack_states !! s = ack_states' !! s
        ∧ ack_versions !! s = ack_versions' !! s) →
  collect_replica_states branch_history version_project_to_branch region
    old_c ack_states ack_versions servers acc
  = collect_replica_states branch_history version_project_to_branch region
      old_c ack_states' ack_versions' servers acc.
Proof.
  induction servers as [|x servers IH] in acc |- *; simpl; [done|].
  intros Hag. destruct (Hag x) as [Hs Hv]; [by left|].
  unfold acked, map_count, map_at. rewrite Hs, Hv.
  destruct (_ && _).
  - destruct (ack_versions' !! x); simpl; [|done].
    apply IH. intros s Hin. apply Hag. by right.
  - apply IH. intros s Hin. apply Hag. by right.
Qed.

(** X15.  Acks that the calculation has no use for are ignored: two calls
    return the same, or throw the same, when their [ack_states] agree on
    the servers of [config.replicas], the voters and temporary voters and
    the primary of the old contract and [config.primary_replica], their
    [ack_versions] agree on the voters, and their [ack_branches] agree on
    the primary. *)
Theorem irrelevant_acks_ignored :
  (∀ s, s ∈ relevant_servers old_c config →
        ack_states !! s = ack_states' !! s) →
  (∀ s, s ∈ contract_t.voters old_c →
        ack_versions !! s = ack_versions' !! s) →
  (∀ p, contract_t.primary old_c = Some p →
        ack_branches !! contract_t.server p
        = ack_branches' !! contract_t.server p) →
  calculate_contract branch_history version_project_to_branch region old_c
    config ack_states ack_versions ack_branches branch_maker
  = calculate_contract branch_history version_project_to_branch region old_c
      config ack_states' ack_versions' ack_branches' branch_maker.
Proof.
  intros Hs Hv Hb. unfold calculate_contract.
  rewrite <- (initiate_voter_change_agree old_c config ack_states
                ack_states' Hs).
  rewrite <- (commit_voter_change_agree old_c config ack_states
                ack_states' Hs).
  destruct (voter_steps_fields old_c config ack_states)
    as (c3 & -> & Hr3 & Hv3 & Ht3 & Hp3 & Hb3). simpl.
  pose proof (remove_old_replicas_fields old_c config c3) as Hrem.
  destruct (remove_old_replicas old_c config c3) as [c4 k].
  simpl in Hrem. destruct Hrem as (Hr4 & Hv4 & Ht4 & Hp4 & Hb4 & Hk).
  assert (contract_t.voters c4 = current_voters old_c ack_states) as Hv4'
    by congruence.
  assert (elect_primary branch_history version_project_to_branch region
            old_c config ack_states ack_versions branch_maker c4
          = elect_primary branch_history version_project_to_branch region
              old_c config ack_states' ack_versions' branch_maker c4) as ->.
  { unfold elect_primary.
    destruct (contract_t.primary old_c) as [p|] eqn:Hold; [done|]. simpl.
    assert (contract_t.voters c4 = contract_t.voters old_c) as Hvold.
    { rewrite Hv4'. unfold current_voters. rewrite Hold.
      by destruct (contract_t.temp_voters old_c). }
    rewrite (collect_replica_states_agree _ []).
    2:{ intros s Hin%elem_of_iter. rewrite Hvold in Hin. split.
        - apply Hs. by apply relevant_voters.
        - by apply Hv. }
    destruct (collect_replica_states _ _ _ _ _ _ _ _) as [l|e] eqn:Hl;
      simpl; [|done].
    destruct (select_new_primary config c4 (std_sort l)) as [np|] eqn:Hsel;
      [|done].
    assert (np ∈ contract_t.voters old_c) as Hnp.
    { apply collect_replica_states_Ok in Hl as [_ ->]. simpl in Hsel.
      unfold select_new_primary in Hsel.
      apply select_loop_elem_of in Hsel.
      apply list_elem_of_fmap in Hsel as ([t s] & -> & He).
      apply (subseteq_drop _ _ _) in He.
      unfold std_sort in He. rewrite merge_sort_Permutation in He.
      apply list_elem_of_omap in He as (x & Hx%elem_of_iter & Hc).
      apply candidate_of_Some in Hc as (_ & v & _ & [= _ ->]).
      by rewrite <- Hvold. }
    unfold map_at. by rewrite (Hv np Hnp). }
  destruct (elect_primary _ _ _ _ _ _ _ _ c4) as [[c5 calls]|e] eqn:He;
    simpl; [|done].
  assert (contract_t.voters c5 = current_voters old_c ack_states) as Hv5.
  { destruct (contract_t.primary old_c) as [p|] eqn:Hold.
    - rewrite elect_primary_has_primary in He by (rewrite Hold; by eexists).
      by injection He as <- <-.
    - assert (contract_t.voters c4 = contract_t.voters old_c) as Hvold.
      { rewrite Hv4'. unfold current_voters. rewrite Hold.
        by destruct (contract_t.temp_voters old_c). }
      apply elect_primary_Ok in He as [_ Hsel]; [|done..].
      destruct (select_loop config _ None).
      + destruct Hsel as (v & _ & -> & _). done.
      + by destruct Hsel as [-> _]. }
  rewrite (replace_primary_agree old_c config ack_states ack_states' Hs)
    by done.
  destruct (replace_primary old_c config ack_states' k c5) as [c6|e];
    simpl; [|done].
  assert (register_branch old_c ack_states ack_branches c6
          = register_branch old_c ack_states' ack_branches' c6) as ->;
    [|done].
  unfold register_branch.
  destruct (contract_t.primary old_c) as [p|] eqn:Hold; [|done].
  destruct (contract_t.primary c6) as [q|]; [|done].
  rewrite (acked_agree old_c config ack_states ack_states' Hs)
    by by apply relevant_primary.
  unfold map_at. by rewrite (Hb p).
Qed.
End irrelevant_acks.

(** ** The further properties on the scenarios *)

Section further_scenarios.
Import scenarios replacement_scenarios.

Lemma handover_returns :
  calculate_contract ∅ project whole_table handover_old_c handover_config
    steady_ack_states ∅ ∅ branch_maker = Ok handover_outcome.
Proof. vm_compute. reflexivity. Qed.

Lemma cleared_returns :
  calculate_contract ∅ project whole_table requested_old_c D_config
    steady_ack_states ∅ ∅ branch_maker = Ok cleared_outcome.
Proof. vm_compute. reflexivity. Qed.

Lemma stale_primary_returns :
  calculate_contract ∅ project whole_table stale_primary_old_c stale_config
    steady_ack_states ∅ ∅ branch_maker = Ok stale_primary_outcome.
Proof. vm_compute. reflexivity. Qed.

Lemma steady_returns :
  calculate_contract ∅ project whole_table D_old_c D_config
    steady_ack_states ∅ ∅ branch_maker = Ok steady_outcome.
Proof. vm_compute. reflexivity. Qed.

Lemma waiting_returns :
  calculate_contract ∅ project whole_table B_old_c B_config
    waiting_ack_states waiting_ack_versions ∅ branch_maker
  = Ok waiting_outcome.
Proof. vm_compute. reflexivity. Qed.

Lemma in_flight_returns :
  calculate_contract ∅ project whole_table in_flight_old_c in_flight_config
    in_flight_ack_states ∅ ∅ branch_maker = Ok in_flight_outcome.
Proof. vm_compute. reflexivity. Qed.

Lemma replicas_keep_config_and_primary_witness :
  table_config_t.replicas stale_config
    ⊆ contract_t.replicas (returned stale_primary_outcome)
  ∧ W ∈ contract_t.replicas (returned stale_primary_outcome).
Proof.
  destruct (replicas_keep_config_and_primary ∅ project whole_table
              stale_primary_old_c stale_config steady_ack_states ∅ ∅
              branch_maker stale_primary_outcome stale_primary_returns)
    as [Hconfig Hprimary].
  split; [exact Hconfig|].
  apply Hprimary; [by_evaluation|reflexivity].
Defined.

Lemma branch_maker_called_iff_elected_witness :
  branch_maker_calls B_outcome = [(Y, version_t.mk 7 2)]
  ∧ contract_t.branch (returned B_outcome)
    = branch_maker Y (version_t.mk 7 2).
Proof.
  destruct (branch_maker_called_iff_elected ∅ project whole_table B_old_c
              B_config B_ack_states B_ack_versions ∅ branch_maker B_outcome
              B_returns)
    as [(Hnone & _)|(s & v & _ & _ & _ & Hcalls & Hbranch)].
  - discriminate Hnone.
  - injection Hcalls as <- <-. split; [reflexivity|exact Hbranch].
Defined.

Lemma old_primary_kept_or_removed_witness :
  contract_t.primary (returned handover_outcome) = None
  ∨ contract_t.primary (returned handover_outcome)
    = Some (contract_t.set_hand_over None (primary_on X))
  ∨ (contract_t.primary (returned handover_outcome)
     = Some (contract_t.set_hand_over
               (Some (table_config_t.primary_replica handover_config))
               (primary_on X))
     ∧ hand_over_wanted handover_config steady_ack_states (primary_on X)).
Proof.
  apply (old_primary_kept_or_removed ∅ project whole_table handover_old_c
           handover_config steady_ack_states ∅ ∅ branch_maker).
  - reflexivity.
  - apply handover_returns.
Defined.

Lemma hand_over_requested_witness :
  contract_t.primary (returned handover_outcome)
  = Some (contract_t.mk_primary X false nil_uuid (Some Y)).
Proof.
  apply (hand_over_requested ∅ project whole_table handover_old_c
           handover_config steady_ack_states ∅ ∅ branch_maker
           handover_outcome (primary_on X)).
  - reflexivity.
  - by_evaluation.
  - by_evaluation.
  - by_evaluation.
  - apply handover_returns.
Defined.

Lemma hand_over_completed_witness :
  ∃ o, calculate_contract ∅ project whole_table requested_old_c
         handover_config steady_ack_states ∅ ∅ branch_maker = Ok o
       ∧ contract_t.primary (returned o) = None
       ∧ old_c_after o = requested_old_c.
Proof.
  apply (hand_over_completed ∅ project whole_table requested_old_c
           handover_config steady_ack_states ∅ ∅ branch_maker handing_over).
  - reflexivity.
  - by_evaluation.
  - by_evaluation.
Defined.

Lemma hand_over_cleared_witness :
  contract_t.primary (returned cleared_outcome) = Some (primary_on X).
Proof.
  apply (hand_over_cleared ∅ project whole_table requested_old_c D_config
           steady_ack_states ∅ ∅ branch_maker cleared_outcome handing_over).
  - reflexivity.
  - by_evaluation.
  - by_evaluation.
  - apply cleared_returns.
Defined.

Lemma stale_primary_removed_but_still_replica_witness :
  ∃ o p, calculate_contract ∅ project whole_table stale_primary_old_c
           stale_config steady_ack_states ∅ ∅ branch_maker = Ok o
         ∧ contract_t.primary stale_primary_old_c = Some p
         ∧ contract_t.primary (returned o) = None
         ∧ contract_t.server p ∈ contract_t.replicas (returned o)
         ∧ (contract_t.server p ∉ table_config_t.replicas stale_config).
Proof.
  apply stale_primary_removed_but_still_replica.
  by_evaluation.
Defined.

Lemma settled_contract_unchanged_witness :
  returned steady_outcome = D_old_c.
Proof.
  apply (settled_contract_unchanged ∅ project whole_table D_old_c D_config
           steady_ack_states ∅ ∅ branch_maker steady_outcome (primary_on X)).
  - by_evaluation.
  - by_evaluation.
  - reflexivity.
  - reflexivity.
  - reflexivity.
  - reflexivity.
  - by_evaluation.
  - apply steady_returns.
Defined.

Lemma waiting_contract_unchanged_witness :
  returned waiting_outcome = B_old_c
  ∧ branch_maker_calls waiting_outcome = [].
Proof.
  apply (waiting_contract_unchanged ∅ project whole_table B_old_c B_config
           waiting_ack_states waiting_ack_versions ∅ branch_maker).
  - by_evaluation.
  - by_evaluation.
  - reflexivity.
  - reflexivity.
  - by_evaluation.
  - apply waiting_returns.
Defined.

Lemma voter_change_in_flight_kept_witness :
  (contract_t.temp_voters (returned in_flight_outcome) = Some {[X; Y; Z]}
   ∧ contract_t.voters (returned in_flight_outcome)
     = contract_t.voters in_flight_old_c)
  ∨ (contract_t.temp_voters (returned in_flight_outcome) = None
     ∧ contract_t.voters (returned in_flight_outcome) = {[X; Y; Z]}).
Proof.
  apply (voter_change_in_flight_kept ∅ project whole_table in_flight_old_c
           in_flight_config in_flight_ack_states ∅ ∅ branch_maker).
  - reflexivity.
  - apply in_flight_returns.
Defined.

Lemma elected_primary_up_to_date_witness :
  Y ∈ contract_t.voters B_old_c
  ∧ needs_primary B_ack_states Y
  ∧ ∃ t, (t, Y) ∈ candidates ∅ project whole_table B_old_c B_ack_states
                     B_ack_versions
         ∧ size (contract_t.voters B_old_c) / 2
           < length (filter (λ e, pair_le e (t, Y))
                            (candidates ∅ project whole_table B_old_c
                               B_ack_states B_ack_versions)).
Proof.
  apply (elected_primary_up_to_date ∅ project whole_table B_old_c B_config
           B_ack_states B_ack_versions ∅ branch_maker B_outcome
           (primary_on Y)).
  - reflexivity.
  - apply B_returns.
  - reflexivity.
Defined.

Lemma throws_iff_voter_without_version_witness :
  calculate_contract ∅ project whole_table no_version_old_c
    no_version_config no_version_ack_states ∅ ∅ branch_maker
  = Throw out_of_range.
Proof.
  apply throws_iff_voter_without_version.
  - reflexivity.
  - split; [reflexivity|]. exists X. split_and!.
    + by_evaluation.
    + reflexivity.
    + reflexivity.
Defined.

Lemma throws_iff_branch_request_without_branch_witness :
  calculate_contract ∅ project whole_table need_branch_old_c
    need_branch_config need_branch_ack_states ∅ ∅ branch_maker
  = Throw out_of_range.
Proof.
  apply (throws_iff_branch_request_without_branch ∅ project whole_table
           need_branch_old_c need_branch_config need_branch_ack_states ∅ ∅
           branch_maker out_of_range (primary_on X)).
  - reflexivity.
  - split_and!.
    + reflexivity.
    + by_evaluation.
    + reflexivity.
    + reflexivity.
Defined.

Lemma irrelevant_acks_ignored_witness :
  calculate_contract ∅ project whole_table B_old_c B_config
    B_ack_states B_ack_versions ∅ branch_maker
  = calculate_contract ∅ project whole_table B_old_c B_config
      stray_ack_states stray_ack_versions stray_ack_branches branch_maker.
Proof.
  assert (W ∉ relevant_servers B_old_c B_config) as Hrel by by_evaluation.
  assert (W ∉ contract_t.voters B_old_c) as Hvot by by_evaluation.
  apply irrelevant_acks_ignored.
  - intros s Hs. unfold stray_ack_states.
    rewrite lookup_insert_ne; [reflexivity|]. intros <-. exact (Hrel Hs).
  - intros s Hs. unfold stray_ack_versions.
    rewrite lookup_insert_ne; [reflexivity|]. intros <-. exact (Hvot Hs).
  - intros p Hp. discriminate Hp.
Defined.
End further_scenarios.
